(** * chemicalite-scripts: similarity search (search.py)

    A shallow embedding of [search.py] and the properties of its adaptive
    threshold search ([get_similarity]), of the per-chunk worker
    ([calc_sim_for_smiles]) and of the chunked parallel dispatch in [main].

    Python floats are IEEE 754 binary64 numbers; they are modelled with the
    executable specification of the Standard Library ([SpecFloat]), so the
    threshold sequence of the loop is the one a Python interpreter computes.
    The SQLite/chemicalite engine and the process pool are outside the
    script: the engine is a parameter (a connection answers a statement with
    rows or raises), and the pool is modelled by the documented behaviour of
    [Executor.map]. *)

From Stdlib Require Import ZArith List String Bool Lia Permutation.
From Stdlib Require Import Floats.SpecFloat.
From Equations Require Import Equations.
Import ListNotations.


(* ===================================================================== *)
(** ** Python floats *)
(* ===================================================================== *)

Module Float64.

Definition prec : Z := 53.
Definition emax : Z := 1024.

Definition float : Type := spec_float.

Definition of_Z (z : Z) : float := binary_normalize prec emax z 0 false.
Definition div : float -> float -> float := SFdiv prec emax.
Definition sub : float -> float -> float := SFsub prec emax.
Definition leb : float -> float -> bool := SFleb.
Definition ltb : float -> float -> bool := SFltb.

(** [a >= b] of Python. *)
Definition geb (a b : float) : bool := leb b a.

Definition zero : float := S754_zero false.

(** The doubles denoted by the literals [0.7] and [0.1]. *)
Definition lit_0_7 : float := S754_finite false 6305039478318694 (-53).
Definition lit_0_1 : float := S754_finite false 7205759403792794 (-56).

(** Other doubles used in the statements. *)
Definition lit_0_6 : float := S754_finite false 5404319552844595 (-53).
Definition lit_0_5 : float := S754_finite false 4503599627370496 (-53).
Definition lit_0_55 : float := S754_finite false 4953959590107546 (-53).
Definition lit_1_0 : float := S754_finite false 4503599627370496 (-52).

Definition decimal (num den : Z) : float := div (of_Z num) (of_Z den).

(** Zero or a positive finite number: what a Tanimoto similarity is. *)
Definition nonneg (x : float) : bool :=
  match x with
  | S754_zero _ => true
  | S754_finite false _ _ => true
  | _ => false
  end.

End Float64.

Import Float64.

(* ===================================================================== *)
(** ** Exceptions, outcomes and the call log *)
(* ===================================================================== *)

(** What [sqlite3] raises when the collection cannot be opened, copied or
    extended (engine unavailable) or when a table, column or index of the
    statement is missing (schema error). *)
Inductive fault : Type := EngineUnavailable | SchemaError.

Inductive exn : Type :=
| Sqlite3Error (f : fault)
| TypeError          (* 'NoneType' object is not subscriptable *)
| IndexError.        (* list index out of range *)

(** How a call ends: it returns, it raises, or it does not return. *)
Inductive outcome (A : Type) : Type :=
| Ok (a : A)
| Raise (e : exn)
| Hang.

Arguments Ok {A} a.
Arguments Raise {A} e.
Arguments Hang {A}.

Inductive Fp : Type := morgan | pattern.

(** The statement built by the f-string of [get_similarity]: its text is
    fixed but for the four interpolated values. *)
Record Sql : Type := mkSql {
  sql_fp : Fp;
  sql_mol_field : string;
  sql_table : string;
  sql_limit : option Z
}.

(** A result row [(main.smi, main.id, t)]. *)
Definition Row : Type := (string * string * float)%type.

(** [con.execute(sql, (query, threshold)).fetchall()]: rows, or an
    exception of the engine. *)
Inductive fetched : Type :=
| Rows (rows : list Row)
| Fails (e : exn).

Definition Connection : Type := Sql -> string -> float -> fetched.

(** One statement sent to the engine. *)
Record Call : Type := mkCall {
  call_sql : Sql;
  call_query : string;
  call_threshold : float
}.

(** Computations of a worker: the statements sent so far, and the outcome. *)
Definition M (A : Type) : Type := (list Call * outcome A)%type.

Definition ret {A} (a : A) : M A := ([], Ok a).
Definition raise {A} (e : exn) : M A := ([], Raise e).

Definition bind {A B} (m : M A) (k : A -> M B) : M B :=
  match m with
  | (log, Ok a) => let (log', r) := k a in (log ++ log', r)
  | (log, Raise e) => (log, Raise e)
  | (log, Hang) => (log, Hang)
  end.

Notation "x <- m ;; k" := (bind m (fun x => k))
  (at level 61, m at next level, right associativity).

Definition calls {A} (m : M A) : list Call := fst m.
Definition result {A} (m : M A) : outcome A := snd m.

(** [con.execute(sql, (query, threshold)).fetchall()], logged. *)
Definition execute (con : Connection) (sql : Sql) (query : string)
    (threshold : float) : M (list Row) :=
  ([mkCall sql query threshold],
   match con sql query threshold with
   | Rows rows => Ok rows
   | Fails e => Raise e
   end).

(* ===================================================================== *)
(** ** get_similarity *)
(* ===================================================================== *)

(** The [while threshold >= 0] loop.  A return value [None] is Python's
    [None] (the loop ended without a [return]). *)
Fixpoint while_loop (fuel : nat) (con : Connection) (sql : Sql)
    (query : string) (threshold : float) : M (option (list Row)) :=
  match fuel with
  | O => ([], Hang)
  | S fuel' =>
      if geb threshold zero then
        res <- execute con sql query threshold ;;
        match res with
        | _ :: _ => ret (Some res)
        | [] => while_loop fuel' con sql query (sub threshold lit_0_1)
        end
      else ret None
  end.

Definition loop_fuel : nat := 64.

Definition get_similarity (con : Connection) (fp : Fp) (mol_field table : string)
    (query : string) (limit : option Z) : M (option (list Row)) :=
  let threshold := lit_0_7 in
  while_loop loop_fuel con (mkSql fp mol_field table limit) query threshold.

(** The thresholds the loop goes through from [threshold], as long as the
    guard holds. *)
Fixpoint schedule (fuel : nat) (threshold : float) : list float :=
  match fuel with
  | O => []
  | S fuel' =>
      if geb threshold zero
      then threshold :: schedule fuel' (sub threshold lit_0_1)
      else []
  end.

(** The thresholds of [get_similarity]: 0.7, 0.6, 0.5, 0.4,
    0.30000000000000004, 0.20000000000000004, 0.10000000000000003 and
    2.7755575615628914e-17 (2^-55). *)
Definition thresholds : list float :=
  [ S754_finite false 6305039478318694 (-53);
    S754_finite false 5404319552844595 (-53);
    S754_finite false 4503599627370496 (-53);
    S754_finite false 7205759403792794 (-54);
    S754_finite false 5404319552844596 (-54);
    S754_finite false 7205759403792795 (-55);
    S754_finite false 7205759403792796 (-56);
    S754_finite false 4503599627370496 (-107) ].

Arguments thresholds : simpl never.

(** The loop seen as a scan of a list of thresholds. *)
Fixpoint scan (con : Connection) (sql : Sql) (query : string)
    (ts : list float) : M (option (list Row)) :=
  match ts with
  | [] => ret None
  | t :: ts' =>
      res <- execute con sql query t ;;
      match res with
      | _ :: _ => ret (Some res)
      | [] => scan con sql query ts'
      end
  end.

(* ===================================================================== *)
(** ** calc_sim_for_smiles *)
(* ===================================================================== *)

(** A query molecule as the worker receives it: [(mol_id, smi)]. *)
Definition Query : Type := (string * string)%type.

(** A result of the worker:
    [(chembl_smi, chembl_id, sim, mol_id, smi)]. *)
Definition MatchRow : Type := (string * string * float * string * string)%type.

(** [res[0]]: [None] is not subscriptable, and an empty list has no first
    element. *)
Definition subscript0 {A} (res : option (list A)) : M A :=
  match res with
  | None => raise TypeError
  | Some [] => raise IndexError
  | Some (r :: _) => ret r
  end.

(** [res[0] + (mol_id, smi)]. *)
Definition tuple_add (r : Row) (q : Query) : MatchRow :=
  let '(chembl_smi, chembl_id, t) := r in
  let '(mol_id, smi) := q in
  (chembl_smi, chembl_id, t, mol_id, smi).

(** The [for mol_id, smi in smiles] loop, with [all_res] as its state. *)
Fixpoint for_smiles (dest : Connection) (fp : Fp) (mol_field table : string)
    (smiles : list Query) (all_res : list MatchRow) : M (list MatchRow) :=
  match smiles with
  | [] => ret all_res
  | (mol_id, smi) :: smiles' =>
      res <- get_similarity dest fp mol_field table smi (Some 1%Z) ;;
      res <- subscript0 res ;;
      for_smiles dest fp mol_field table smiles'
                 (all_res ++ [tuple_add res (mol_id, smi)])
  end.

(** Lines 45 to 49: open the database, copy it into a private in-memory
    database and load the chemicalite extension there.  The result is the
    connection [dest], or what [sqlite3] raised. *)
Definition Sqlite3 : Type := string -> exn + Connection.

Definition calc_sim_for_smiles (sqlite3 : Sqlite3) (smiles : list Query)
    (db_name : string) (fp : Fp) (mol_field table : string)
  : M (list MatchRow) :=
  match sqlite3 db_name with
  | inl e => raise e
  | inr dest => for_smiles dest fp mol_field table smiles []
  end.

(* ===================================================================== *)
(** ** Chunking *)
(* ===================================================================== *)

Definition cpu_type (cpu_count x : Z) : Z := Z.max 1 (Z.min x cpu_count).

(** [take(n, iterable)] on an iterator: the items taken, and the iterator
    after them. *)
Definition take {A} (n : nat) (iterable : list A) : list A * list A :=
  (firstn n iterable, skipn n iterable).

Definition inspect {A} (a : A) : {b : A | a = b} := exist _ a eq_refl.

(** [iter(partial(take, n, it), [])]: call [take] until it returns [[]]. *)
Equations? chunked {A} (n : nat) (it : list A) : list (list A)
  by wf (List.length it) lt :=
  chunked n it with inspect (take n it) := {
    | exist _ ([], _) _ := [];
    | exist _ (x :: c, it') e := (x :: c) :: chunked n it' }.
Proof.
  destruct n as [|n]; [discriminate|].
  destruct it as [|y it]; [discriminate|].
  simpl. pose proof (length_skipn n it). lia.
Qed.

(* ===================================================================== *)
(** ** The process pool *)
(* ===================================================================== *)

(** A future: pending, or done with an outcome. *)
Definition Future (A : Type) : Type := option (outcome A).

Fixpoint set_nth {A} (i : nat) (x : A) (l : list A) : list A :=
  match l, i with
  | [], _ => []
  | _ :: l', O => x :: l'
  | y :: l', S i' => y :: set_nth i' x l'
  end.

(** The calls submitted to the pool complete in the order [completion]
    (indices into the list of submitted calls); each one sets its own
    future. *)
Fixpoint complete {A} (tasks : list (outcome A)) (completion : list nat)
    (fs : list (Future A)) : list (Future A) :=
  match completion with
  | [] => fs
  | i :: completion' =>
      complete tasks completion'
        (match nth_error tasks i with
         | Some r => set_nth i (Some r) fs
         | None => fs
         end)
  end.

(** [Executor.map(fn, iterable)]: every item is submitted at once, and the
    iterator returned gives [fs[0].result()], [fs[1].result()], ... in the
    order of submission. *)
Definition executor_map {A B} (fn : A -> outcome B) (iterable : list A)
    (completion : list nat) : list (Future B) :=
  let tasks := map fn iterable in
  complete tasks completion (repeat None (List.length tasks)).

(** [sum(iterator, start)] over the results of the futures. *)
Fixpoint sum {B} (fs : list (Future (list B))) (start : list B)
  : outcome (list B) :=
  match fs with
  | [] => Ok start
  | None :: _ => Hang
  | Some (Ok v) :: fs' => sum fs' (start ++ v)
  | Some (Raise e) :: _ => Raise e
  | Some Hang :: _ => Hang
  end.

(** A pool that completes every submitted call exactly once. *)
Definition fair (n : nat) (completion : list nat) : Prop :=
  Permutation completion (seq 0 n).

(* ===================================================================== *)
(** ** main *)
(* ===================================================================== *)

Record Args : Type := mkArgs {
  input_db : string;
  input_smiles : string;
  output : string;
  table : string;
  mol_field : string;
  fp : Fp;
  threshold : float;
  limit : option Z;
  ncpu : nat
}.

(** The two columns [main] reads from the CSV file. *)
Record DataFrame : Type := mkDataFrame {
  Name : list string;
  smi : list string
}.

Definition tab : string := String (Ascii.ascii_of_nat 9) EmptyString.
Definition nl : string := String (Ascii.ascii_of_nat 10) EmptyString.

Definition join (sep : string) (l : list string) : string :=
  match l with
  | [] => EmptyString
  | x :: l' => fold_left (fun acc y => acc ++ sep ++ y) l' x
  end%string.

Definition header : string :=
  (join tab ["smi"; "mol_id"; "chembl_smi"; "chembl_id"; "similarity"] ++ nl)%string.

Section Main.

(** The world of the script: the database files, the CSV reader, and the
    text Python prints for [round(sim, 4)]. *)
Variable sqlite3 : Sqlite3.
Variable read_csv : string -> DataFrame.
Variable str_round4 : float -> string.

Definition write_row (r : MatchRow) : string :=
  let '(chembl_smi, chembl_id, sim, mol_id, smi_sql) := r in
  (smi_sql ++ tab ++ mol_id ++ tab ++ chembl_smi ++ tab ++ chembl_id
     ++ tab ++ str_round4 sim ++ nl)%string.

(** The queries [zip(mol_ids, smiles)]. *)
Definition queries (args : Args) : list Query :=
  let df_mols := read_csv (input_smiles args) in
  combine (Name df_mols) (smi df_mols).

(** [sum(p.map(partial(calc_sim_for_smiles, ...), chunked), [])]. *)
Definition match_results (args : Args) (completion : list nat)
  : outcome (list MatchRow) :=
  let chunks := chunked (ncpu args) (queries args) in
  sum (executor_map
         (fun smiles =>
            result (calc_sim_for_smiles sqlite3 smiles (input_db args)
                      (fp args) (mol_field args) (table args)))
         chunks completion) [].

(** The run: the lines written to the output file (which starts empty),
    and how the run ends. *)
Definition main (args : Args) (completion : list nat)
  : list string * outcome unit :=
  let f := [header] in
  match match_results args completion with
  | Ok rows => (f ++ map write_row rows, Ok tt)
  | Raise e => (f, Raise e)
  | Hang => (f, Hang)
  end.

End Main.

(* ===================================================================== *)
(** ** The statement of get_similarity on a table *)
(* ===================================================================== *)

(** What the SELECT of [get_similarity] computes on a table of molecules:
    the rows whose Tanimoto similarity to the query is at least the
    threshold ([MATCH rdtree_tanimoto(..., ?2)]), in descending order of
    similarity, cut at [LIMIT].  The fingerprints are chemicalite's: the
    similarity of a row to a query is given by the database, and is [None]
    (SQL NULL) when [mol_from_smiles] cannot read the query. *)
Module Chemicalite.

Record Database : Type := mkDatabase {
  db_table : string;
  db_mol_field : string;
  db_indexed : list Fp;
  db_rows : list (string * string);          (* (smi, id) *)
  db_tanimoto : Fp -> string -> string -> option float
}.

Definition Fp_eqb (a b : Fp) : bool :=
  match a, b with
  | morgan, morgan | pattern, pattern => true
  | _, _ => false
  end.

Definition similarity (r : Row) : float := snd r.

Fixpoint insert_desc (r : Row) (l : list Row) : list Row :=
  match l with
  | [] => [r]
  | r' :: l' =>
      if geb (similarity r) (similarity r') then r :: l
      else r' :: insert_desc r l'
  end.

Definition order_by_t_desc (l : list Row) : list Row :=
  fold_right insert_desc [] l.

Definition apply_limit (limit : option Z) (l : list Row) : list Row :=
  match limit with
  | None => l
  | Some n => if (n <? 0)%Z then l else firstn (Z.to_nat n) l
  end.

Definition candidates (db : Database) (fp : Fp) (query : string) : list Row :=
  flat_map (fun '(smi, id) =>
              match db_tanimoto db fp query smi with
              | Some t => [(smi, id, t)]
              | None => []
              end) (db_rows db).

Definition select (db : Database) : Connection :=
  fun sql query threshold =>
    if String.eqb (sql_table sql) (db_table db)
       && String.eqb (sql_mol_field sql) (db_mol_field db)
       && existsb (Fp_eqb (sql_fp sql)) (db_indexed db)
    then Rows (apply_limit (sql_limit sql)
                 (order_by_t_desc
                    (filter (fun r => geb (similarity r) threshold)
                            (candidates db (sql_fp sql) query))))
    else Fails (Sqlite3Error SchemaError).

(** A database without any table: every statement of [get_similarity]
    fails for want of the table. *)
Definition empty_database : Connection :=
  fun _ _ _ => Fails (Sqlite3Error SchemaError).

(** Database files by name.  [sqlite3.connect] creates a file that is not
    there, so the connection is then to an empty database. *)
Definition files (fs : list (string * Database)) : Sqlite3 :=
  fun db_name =>
    match find (fun f => String.eqb (fst f) db_name) fs with
    | Some (_, db) => inr (select db)
    | None => inr empty_database
    end.

End Chemicalite.

(* ===================================================================== *)
(** ** A small world for the examples *)
(* ===================================================================== *)

Module Example.
Import Chemicalite.
Open Scope string_scope.

(** Three reference molecules.  [CCO] is in the collection; the best
    match of [CCCO] has similarity 0.55; [XYZ-invalid] is not a molecule. *)
Definition tanimoto (fp : Fp) (query ref : string) : option float :=
  if String.eqb query "CCO" then
    if String.eqb ref "CCO" then Some lit_1_0
    else if String.eqb ref "CCN" then Some (decimal 3 10)
    else Some (decimal 1 10)
  else if String.eqb query "CCCO" then
    if String.eqb ref "CCO" then Some lit_0_55
    else if String.eqb ref "CCN" then Some (decimal 25 100)
    else Some (decimal 1 10)
  else None.

Definition chembl : Database :=
  mkDatabase "mols" "mol" [morgan; pattern]
    [("CCN", "ref2"); ("CCO", "ref1"); ("c1ccccc1", "ref3")]
    tanimoto.

Definition sqlite3 : Sqlite3 := files [("chembl.db", chembl)].

Definition con : Connection := select chembl.

Definition read_csv (mols : DataFrame) : string -> DataFrame :=
  fun _ => mols.

(** Rendering of [round(sim, 4)] for the similarities of this world. *)
Definition str_round4 (t : float) : string :=
  if SFeqb t lit_1_0 then "1.0"
  else if SFeqb t lit_0_55 then "0.55"
  else "?".

Definition args (ncpu : nat) : Args :=
  mkArgs "chembl.db" "queries.csv" "out.tsv" "mols" "mol" morgan
         lit_0_7 None ncpu.

Definition four_queries : DataFrame :=
  mkDataFrame ["q1"; "q2"; "q3"; "q4"] ["CCO"; "CCCO"; "CCCO"; "CCO"].

Definition with_invalid : DataFrame :=
  mkDataFrame ["q1"; "q2"; "q3"] ["CCO"; "XYZ-invalid"; "CCCO"].

(** The same collection behind an engine that becomes unavailable
    during the second statement for [CCCO]. *)
Definition flaky : Connection :=
  fun sql query threshold =>
    if String.eqb query "CCCO" && SFeqb threshold lit_0_6
    then Fails (Sqlite3Error EngineUnavailable)
    else select chembl sql query threshold.

Definition sqlite3_flaky : Sqlite3 :=
  fun db_name =>
    if String.eqb db_name "chembl.db" then inr flaky
    else inl (Sqlite3Error EngineUnavailable).

(** A machine without the chemicalite extension: [load_extension] raises,
    whatever the database. *)
Definition no_extension : Sqlite3 :=
  fun _ => inl (Sqlite3Error EngineUnavailable).

(** A query without any match, then a query during which the engine of
    [flaky] becomes unavailable. *)
Definition invalid_then_flaky : DataFrame :=
  mkDataFrame ["q1"; "q2"] ["XYZ-invalid"; "CCCO"].

(** A collection whose only molecule shares no fingerprint bit with any
    query: its similarity to every query is 0.0. *)
Definition disjoint : Database :=
  mkDatabase "mols" "mol" [morgan; pattern] [("[Na+]", "ref9")]
    (fun _ _ _ => Some zero).

(** Batches of a worker. *)
Definition two_queries : list Query := [("q1", "CCO"); ("q2", "CCCO")].

Definition invalid_second : list Query :=
  [("q1", "CCO"); ("q2", "XYZ-invalid"); ("q3", "CCCO")].

Definition two_rows : list MatchRow :=
  [("CCO", "ref1", lit_1_0, "q1", "CCO");
   ("CCO", "ref1", lit_0_55, "q2", "CCCO")].

End Example.

(* ===================================================================== *)
(** ** What the specification says about aggregation *)
(* ===================================================================== *)

(** Concatenation of the chunk results in the order in which the chunks
    complete. *)
Definition completion_order_results {B} (tasks : list (outcome (list B)))
    (completion : list nat) : outcome (list B) :=
  sum (map (fun i => nth_error tasks i) completion) [].

(* ===================================================================== *)
(** ** Vocabulary of the statements *)
(* ===================================================================== *)

(** The statement sent for [query] at [threshold] finds a row. *)
Definition matches_at (con : Connection) (sql : Sql) (query : string)
    (t : float) : Prop :=
  exists r rows, con sql query t = Rows (r :: rows).

(** The engine answers (does not raise on) every statement of the backoff
    for [query]. *)
Definition answers (con : Connection) (sql : Sql) (query : string) : Prop :=
  forall t, In t thresholds -> exists rows, con sql query t = Rows rows.

(** Some threshold of the backoff has a match for [query]. *)
Definition has_match (con : Connection) (sql : Sql) (query : string) : Prop :=
  exists t, In t thresholds /\ matches_at con sql query t.


(** The statement of the worker: [limit=1]. *)
Definition worker_sql (fp : Fp) (mol_field table : string) : Sql :=
  mkSql fp mol_field table (Some 1%Z).

(** The body of the worker's loop for one query, without the append. *)
Definition query_row (dest : Connection) (fp : Fp) (mol_field table : string)
    (q : Query) : M MatchRow :=
  res <- get_similarity dest fp mol_field table (snd q) (Some 1%Z) ;;
  res <- subscript0 res ;;
  ret (tuple_add res q).

Fixpoint mapM {A B} (f : A -> M B) (l : list A) : M (list B) :=
  match l with
  | [] => ret []
  | x :: l' => y <- f x ;; ys <- mapM f l' ;; ret (y :: ys)
  end.

(** The query a result row was computed for: [(mol_id, smi)]. *)
Definition origin (r : MatchRow) : Query :=
  let '(_, _, _, mol_id, smi) := r in (mol_id, smi).

(** The reference row of a result. *)
Definition reference (r : MatchRow) : Row :=
  let '(chembl_smi, chembl_id, t, _, _) := r in (chembl_smi, chembl_id, t).

Definition set_threshold (t : float) (a : Args) : Args :=
  mkArgs (input_db a) (input_smiles a) (output a) (table a) (mol_field a)
         (fp a) t (limit a) (ncpu a).

Definition set_limit (l : option Z) (a : Args) : Args :=
  mkArgs (input_db a) (input_smiles a) (output a) (table a) (mol_field a)
         (fp a) (threshold a) l (ncpu a).

Definition set_ncpu (n : nat) (a : Args) : Args :=
  mkArgs (input_db a) (input_smiles a) (output a) (table a) (mol_field a)
         (fp a) (threshold a) (limit a) n.

(** What a lone worker would return for the rows [start] already gathered:
    used to compare a run in chunks with a run in one batch. *)
Definition gathered {B} (start : list B) (o : outcome (list B))
  : outcome (list B) :=
  match o with
  | Ok v => Ok (start ++ v)
  | Raise e => Raise e
  | Hang => Hang
  end.

(* ===================================================================== *)
(** ** The threshold sequence *)
(* ===================================================================== *)

Lemma lit_0_7_nearest : lit_0_7 = decimal 7 10.
Proof. vm_compute. reflexivity. Qed.

Lemma lit_0_1_nearest : lit_0_1 = decimal 1 10.
Proof. vm_compute. reflexivity. Qed.

Lemma lit_0_6_nearest : lit_0_6 = decimal 6 10.
Proof. vm_compute. reflexivity. Qed.

Lemma lit_0_5_nearest : lit_0_5 = decimal 5 10.
Proof. vm_compute. reflexivity. Qed.

Lemma lit_0_55_nearest : lit_0_55 = decimal 55 100.
Proof. vm_compute. reflexivity. Qed.

(** The loop started at 0.7 goes through [thresholds] and then leaves. *)
Lemma schedule_thresholds : schedule loop_fuel lit_0_7 = thresholds.
Proof. vm_compute. reflexivity. Qed.

Lemma schedule_enough_fuel (fuel : nat) :
  (9 <= fuel)%nat -> schedule fuel lit_0_7 = thresholds.
Proof.
  intros H. replace fuel with (9 + (fuel - 9))%nat by lia.
  generalize (fuel - 9)%nat. intros n. vm_compute. reflexivity.
Qed.

Lemma thresholds_start :
  firstn 3 thresholds = [lit_0_7; lit_0_6; lit_0_5].
Proof. reflexivity. Qed.

Lemma thresholds_nonneg : Forall (fun t => geb t zero = true) thresholds.
Proof. repeat constructor. Qed.

(** Each threshold is below the ones before it. *)
Lemma thresholds_decreasing (i j : nat) (ti tj : float) :
  (i <= j)%nat ->
  nth_error thresholds i = Some ti ->
  nth_error thresholds j = Some tj ->
  leb tj ti = true.
Proof.
  intros Hij Hi Hj.
  assert (Hj8 : (j < 8)%nat).
  { apply (proj1 (nth_error_Some thresholds j)). congruence. }
  destruct j as [|[|[|[|[|[|[|[|j]]]]]]]]; try lia;
    destruct i as [|[|[|[|[|[|[|[|i]]]]]]]]; try lia;
    vm_compute in Hi, Hj; injection Hi as <-; injection Hj as <-;
    reflexivity.
Qed.

(** The last threshold is 2^-55, not 0. *)
Lemma thresholds_last :
  last thresholds zero = S754_finite false 4503599627370496 (-107) /\
  ltb zero (last thresholds zero) = true.
Proof. split; reflexivity. Qed.

(* ===================================================================== *)
(** ** The monad *)
(* ===================================================================== *)

Lemma bind_ret_l {A B} (a : A) (k : A -> M B) : bind (ret a) k = k a.
Proof. unfold bind, ret. destruct (k a). reflexivity. Qed.


Lemma bind_Raise {A B} (log : list Call) (e : exn) (k : A -> M B) :
  bind (log, Raise e) k = (log, Raise e).
Proof. reflexivity. Qed.

Lemma bind_Hang {A B} (log : list Call) (k : A -> M B) :
  bind (log, Hang) k = (log, Hang).
Proof. reflexivity. Qed.

Lemma M_eta {A} (m : M A) : m = (calls m, result m).
Proof. destruct m. reflexivity. Qed.

(* ===================================================================== *)
(** ** The adaptive search *)
(* ===================================================================== *)

Section Adapter.

Variable con : Connection.
Variable sql : Sql.
Variable query : string.

Let empty_at (t : float) : Prop := con sql query t = Rows [].
Let call (t : float) : Call := mkCall sql query t.

Lemma while_loop_scan (fuel : nat) :
  forall t,
    (List.length (schedule fuel t) < fuel)%nat ->
    while_loop fuel con sql query t = scan con sql query (schedule fuel t).
Proof.
  induction fuel as [|fuel IH]; intros t Hlen; simpl in *; [lia|].
  destruct (geb t zero); simpl in *; [|reflexivity].
  unfold execute. destruct (con sql query t) as [[|r rows]|e]; simpl;
    try reflexivity.
  rewrite IH by lia. reflexivity.
Qed.

Lemma scan_exhausted (ts : list float) :
  Forall empty_at ts ->
  scan con sql query ts = (map call ts, Ok None).
Proof.
  induction 1 as [|t ts Ht _ IH]; simpl; [reflexivity|].
  unfold execute. rewrite Ht. simpl. rewrite IH. reflexivity.
Qed.

Lemma scan_first_match (pre post : list float) (t : float) (r : Row)
    (rows : list Row) :
  Forall empty_at pre ->
  con sql query t = Rows (r :: rows) ->
  scan con sql query (pre ++ t :: post)
  = (map call (pre ++ [t]), Ok (Some (r :: rows))).
Proof.
  intros Hpre Ht. induction Hpre as [|t' pre Ht' _ IH]; simpl.
  - unfold execute. rewrite Ht. reflexivity.
  - unfold execute. rewrite Ht'. simpl. rewrite IH. reflexivity.
Qed.

Lemma scan_raises (pre post : list float) (t : float) (e : exn) :
  Forall empty_at pre ->
  con sql query t = Fails e ->
  scan con sql query (pre ++ t :: post) = (map call (pre ++ [t]), Raise e).
Proof.
  intros Hpre Ht. induction Hpre as [|t' pre Ht' _ IH]; simpl.
  - unfold execute. rewrite Ht. reflexivity.
  - unfold execute. rewrite Ht'. simpl. rewrite IH. reflexivity.
Qed.

(** Every scan is one of the three above. *)
Lemma scan_cases (ts : list float) :
  Forall empty_at ts \/
  exists pre t post,
    ts = pre ++ t :: post /\ Forall empty_at pre /\
    (matches_at con sql query t \/ exists e, con sql query t = Fails e).
Proof.
  induction ts as [|t ts IH]; [left; constructor|].
  destruct (con sql query t) as [[|r rows]|e] eqn:Ht.
  - destruct IH as [IH|(pre & t' & post & -> & Hpre & Ht')].
    + left. constructor; assumption.
    + right. exists (t :: pre), t', post. repeat split; try assumption.
      constructor; assumption.
  - right. exists [], t, ts. repeat split; [constructor|].
    left. exists r, rows. assumption.
  - right. exists [], t, ts. repeat split; [constructor|].
    right. exists e. assumption.
Qed.

End Adapter.

Lemma get_similarity_scan (con : Connection) (fp : Fp)
    (mol_field table query : string) (limit : option Z) :
  get_similarity con fp mol_field table query limit
  = scan con (mkSql fp mol_field table limit) query thresholds.
Proof.
  unfold get_similarity. rewrite while_loop_scan.
  - rewrite schedule_thresholds. reflexivity.
  - rewrite schedule_thresholds. vm_compute. lia.
Qed.

(** The fuel of the model does not matter: nine rounds are enough, and
    more rounds change nothing. *)
Lemma while_loop_enough_fuel (con : Connection) (sql : Sql) (query : string)
    (fuel : nat) :
  (9 <= fuel)%nat ->
  while_loop fuel con sql query lit_0_7 = scan con sql query thresholds.
Proof.
  intros H. rewrite while_loop_scan; rewrite (schedule_enough_fuel fuel H).
  - reflexivity.
  - simpl. lia.
Qed.

(** The three ways [get_similarity] ends.  It never hangs, and a list it
    returns is not empty. *)
Lemma get_similarity_cases (con : Connection) (fp : Fp)
    (mol_field table query : string) (limit : option Z) :
  let sql := mkSql fp mol_field table limit in
  let call := mkCall sql query in
  (Forall (fun t => con sql query t = Rows []) thresholds /\
   get_similarity con fp mol_field table query limit
   = (map call thresholds, Ok None)) \/
  (exists pre t post,
      thresholds = pre ++ t :: post /\
      Forall (fun t => con sql query t = Rows []) pre /\
      ((exists r rows,
           con sql query t = Rows (r :: rows) /\
           get_similarity con fp mol_field table query limit
           = (map call (pre ++ [t]), Ok (Some (r :: rows)))) \/
       (exists e,
           con sql query t = Fails e /\
           get_similarity con fp mol_field table query limit
           = (map call (pre ++ [t]), Raise e)))).
Proof.
  intros sql call. rewrite get_similarity_scan. fold sql.
  destruct (scan_cases con sql query thresholds)
    as [Hall|(pre & t & post & Heq & Hpre & [(r & rows & Ht)|(e & Ht)])].
  - left. split; [assumption|]. apply scan_exhausted. assumption.
  - right. exists pre, t, post. repeat split; try assumption.
    left. exists r, rows. split; [assumption|].
    rewrite Heq. apply scan_first_match; assumption.
  - right. exists pre, t, post. repeat split; try assumption.
    right. exists e. split; [assumption|].
    rewrite Heq. apply scan_raises; assumption.
Qed.

Lemma get_similarity_no_hang (con : Connection) (fp : Fp)
    (mol_field table query : string) (limit : option Z) :
  result (get_similarity con fp mol_field table query limit) <> Hang.
Proof.
  destruct (get_similarity_cases con fp mol_field table query limit)
    as [[_ ->]|(pre & t & post & _ & _ & [(r & rows & _ & ->)|(e & _ & ->)])];
    discriminate.
Qed.

(** Every statement [get_similarity] sends is the one it was asked for:
    same fingerprint, field, table and limit, same query. *)
Lemma get_similarity_calls (con : Connection) (fp : Fp)
    (mol_field table query : string) (limit : option Z) :
  exists k,
    calls (get_similarity con fp mol_field table query limit)
    = map (mkCall (mkSql fp mol_field table limit) query) (firstn k thresholds)
    /\ (1 <= k <= 8)%nat.
Proof.
  destruct (get_similarity_cases con fp mol_field table query limit)
    as [[_ ->]|(pre & t & post & Heq & _ & [(r & rows & _ & ->)|(e & _ & ->)])].
  - exists 8%nat. split; [reflexivity|lia].
  - exists (S (List.length pre)). split.
    + simpl calls. f_equal. rewrite Heq.
      replace (S (List.length pre)) with (List.length (pre ++ [t])).
      * change (pre ++ t :: post) with (pre ++ [t] ++ post).
        rewrite app_assoc, firstn_app, firstn_all, Nat.sub_diag. simpl.
        rewrite app_nil_r. reflexivity.
      * rewrite length_app. simpl. lia.
    + apply (f_equal (@List.length _)) in Heq. rewrite length_app in Heq.
      simpl in Heq. lia.
  - exists (S (List.length pre)). split.
    + simpl calls. f_equal. rewrite Heq.
      replace (S (List.length pre)) with (List.length (pre ++ [t])).
      * change (pre ++ t :: post) with (pre ++ [t] ++ post).
        rewrite app_assoc, firstn_app, firstn_all, Nat.sub_diag. simpl.
        rewrite app_nil_r. reflexivity.
      * rewrite length_app. simpl. lia.
    + apply (f_equal (@List.length _)) in Heq. rewrite length_app in Heq.
      simpl in Heq. lia.
Qed.

Lemma firstn_app_cons {A} (pre post : list A) (t : A) :
  firstn (S (List.length pre)) (pre ++ t :: post) = pre ++ [t].
Proof.
  induction pre as [|a pre IH]; simpl; [reflexivity|].
  simpl in IH. rewrite IH. reflexivity.
Qed.

Lemma nth_error_app_cons {A} (pre post : list A) (t : A) :
  nth_error (pre ++ t :: post) (List.length pre) = Some t.
Proof. induction pre; simpl; auto. Qed.

Lemma nth_error_before {A} (pre post : list A) (t x : A) (j : nat) :
  (j < List.length pre)%nat ->
  nth_error (pre ++ t :: post) j = Some x -> In x pre.
Proof.
  intros Hj H. rewrite nth_error_app1 in H by assumption.
  eapply nth_error_In; eassumption.
Qed.

(** X19. If the engine answers and some threshold the backoff issues (0.7,
    0.6, 0.5, ... , the last one 2^-55) has a match for the query, the search
    returns the rows of the first band that is not empty, which is the
    highest threshold of the sequence with a match, and sends no statement
    after it.  In particular, when the bands 0.7 and 0.6 are empty and the
    band 0.5 has a match, the statements sent are those at 0.7, 0.6 and 0.5
    and the rows returned are those of the band 0.5. *)
Theorem get_similarity_highest_band (con : Connection) (fp : Fp)
    (mol_field table query : string) (limit : option Z) :
  let sql := mkSql fp mol_field table limit in
  answers con sql query ->
  has_match con sql query ->
  exists k t rows,
    nth_error thresholds k = Some t /\
    geb t zero = true /\
    con sql query t = Rows rows /\ rows <> [] /\
    (forall j t', (j < k)%nat -> nth_error thresholds j = Some t' ->
                  con sql query t' = Rows []) /\
    (forall t', In t' thresholds -> matches_at con sql query t' ->
                leb t' t = true) /\
    get_similarity con fp mol_field table query limit
    = (map (mkCall sql query) (firstn (S k) thresholds), Ok (Some rows)) /\
    (con sql query lit_0_7 = Rows [] ->
     con sql query lit_0_6 = Rows [] ->
     matches_at con sql query lit_0_5 ->
     t = lit_0_5 /\
     firstn (S k) thresholds = [lit_0_7; lit_0_6; lit_0_5]).
Proof.
  intros sql Hans (tm & Htm & rm & rowsm & Hm).
  pose proof (get_similarity_cases con fp mol_field table query limit) as Hc.
  cbv zeta in Hc. fold sql in Hc.
  destruct Hc as [[Hall _]|(pre & t & post & Heq & Hpre &
                            [(r & rows & Ht & Hget)|(e & Ht & _)])].
  - rewrite Forall_forall in Hall. rewrite (Hall _ Htm) in Hm. discriminate.
  - assert (Hk : nth_error thresholds (List.length pre) = Some t).
    { rewrite Heq. apply nth_error_app_cons. }
    assert (Hbefore : forall j t', (j < List.length pre)%nat ->
              nth_error thresholds j = Some t' -> con sql query t' = Rows []).
    { intros j t' Hj Hn. rewrite Heq in Hn.
      rewrite Forall_forall in Hpre. apply Hpre.
      eapply nth_error_before; eassumption. }
    exists (List.length pre), t, (r :: rows).
    split; [assumption|]. split.
    { pose proof thresholds_nonneg as Hnn. rewrite Forall_forall in Hnn.
      apply Hnn. eapply nth_error_In; eassumption. }
    split; [assumption|]. split; [discriminate|].
    split; [assumption|]. split.
    { intros t' Hin (r' & rows' & Hm').
      destruct (In_nth_error _ _ Hin) as [j Hj].
      destruct (Nat.lt_ge_cases j (List.length pre)) as [Hlt|Hge].
      - rewrite (Hbefore _ _ Hlt Hj) in Hm'. discriminate.
      - eapply thresholds_decreasing; eassumption. }
    split.
    { rewrite Hget. f_equal. f_equal. rewrite Heq.
      symmetry. apply firstn_app_cons. }
    intros H7 H6 (r5 & rows5 & H5).
    unfold lit_0_7, lit_0_6, lit_0_5 in *. unfold thresholds in Heq.
    destruct pre as [|a [|b [|c pre]]]; simpl in Heq.
    + injection Heq as <- _. rewrite H7 in Ht. discriminate.
    + injection Heq as <- <- _. rewrite H6 in Ht. discriminate.
    + injection Heq as <- <- <- _. split; reflexivity.
    + injection Heq as <- <- <- _.
      rewrite Forall_forall in Hpre.
      rewrite (Hpre _ (or_intror (or_intror (or_introl eq_refl)))) in H5.
      discriminate.
  - destruct (Hans t) as [rows' Hrows'].
    + rewrite Heq. apply in_or_app. right. left. reflexivity.
    + rewrite Hrows' in Ht. discriminate.
Qed.

Lemma example_answers (fp : Fp) (query : string) (limit : option Z) :
  answers Example.con (mkSql fp "mol" "mols" limit) query.
Proof.
  intros t _. unfold Example.con, Chemicalite.select.
  destruct fp; simpl; eexists; reflexivity.
Qed.

Lemma get_similarity_highest_band_witness :
  answers Example.con (mkSql morgan "mol" "mols" (Some 1%Z)) "CCCO" /\
  has_match Example.con (mkSql morgan "mol" "mols" (Some 1%Z)) "CCCO" /\
  get_similarity Example.con morgan "mol" "mols" "CCCO" (Some 1%Z)
  = (map (mkCall (mkSql morgan "mol" "mols" (Some 1%Z)) "CCCO")
         [lit_0_7; lit_0_6; lit_0_5],
     Ok (Some [("CCO", "ref1", lit_0_55)%string])).
Proof.
  assert (H5 : matches_at Example.con (mkSql morgan "mol" "mols" (Some 1%Z))
                 "CCCO" lit_0_5).
  { eexists. eexists. vm_compute. reflexivity. }
  assert (Hm : has_match Example.con (mkSql morgan "mol" "mols" (Some 1%Z))
                 "CCCO").
  { exists lit_0_5. split; [|exact H5]. right. right. left. reflexivity. }
  split; [apply example_answers|]. split; [exact Hm|].
  destruct (get_similarity_highest_band Example.con morgan "mol" "mols" "CCCO"
              (Some 1%Z) (example_answers _ _ _) Hm)
    as (k & t & rows & _ & _ & Hrows & _ & _ & _ & Hget & Hscenario).
  destruct Hscenario as [-> Hfirst]; [reflexivity | reflexivity | exact H5 |].
  rewrite Hget, Hfirst. vm_compute in Hrows. injection Hrows as <-.
  reflexivity.
Defined.

(** C2. A table whose only molecule has similarity 0.0 to the query.  The
    engine answers every statement, and a match exists at the threshold
    0.0, which is at least 0; yet the search sends its eight statements,
    the last one at the threshold 2^-55, fetches nothing and returns [None]
    instead of the row of the band 0.0. *)
Theorem match_at_zero_not_found :
  let con := Chemicalite.select Example.disjoint in
  let sql := mkSql morgan "mol" "mols" (Some 1%Z) in
  answers con sql "CCO" /\
  geb zero zero = true /\
  con sql "CCO"%string zero = Rows [("[Na+]", "ref9", zero)%string] /\
  get_similarity con morgan "mol" "mols" "CCO" (Some 1%Z)
  = (map (mkCall sql "CCO") thresholds, Ok None) /\
  last thresholds zero = S754_finite false 4503599627370496 (-107).
Proof.
  cbv zeta. split.
  - intros t _. unfold Chemicalite.select. simpl. eexists. reflexivity.
  - repeat split; vm_compute; reflexivity.
Qed.

(** C4. The [threshold] option is not used: two runs that differ only in
    its value write the same file and end the same way, and every search
    starts at 0.7 whatever it is asked for. *)
Theorem threshold_option_unused (sqlite3 : Sqlite3)
    (read_csv : string -> DataFrame) (str_round4 : float -> string)
    (args : Args) (completion : list nat) (t1 t2 : float) :
  main sqlite3 read_csv str_round4 (set_threshold t1 args) completion
  = main sqlite3 read_csv str_round4 (set_threshold t2 args) completion
  /\
  match_results sqlite3 read_csv (set_threshold t1 args) completion
  = match_results sqlite3 read_csv (set_threshold t2 args) completion
  /\
  forall (con : Connection) (query : string),
  exists rest,
    calls (get_similarity con (fp (set_threshold t1 args))
             (mol_field (set_threshold t1 args))
             (table (set_threshold t1 args)) query (Some 1%Z))
    = mkCall (worker_sql (fp args) (mol_field args) (table args)) query lit_0_7
        :: rest.
Proof.
  split; [reflexivity|]. split; [reflexivity|].
  intros con query. simpl.
  destruct (get_similarity_calls con (fp args) (mol_field args) (table args)
              query (Some 1%Z)) as (k & -> & Hk).
  destruct k as [|k]; [lia|]. simpl. eexists. reflexivity.
Qed.

(* ===================================================================== *)
(** ** The worker *)
(* ===================================================================== *)

Lemma bind_assoc {A B C} (m : M A) (f : A -> M B) (g : B -> M C) :
  bind (bind m f) g = bind m (fun x => bind (f x) g).
Proof.
  destruct m as [log [a|e|]]; simpl; try reflexivity.
  destruct (f a) as [log' [b|e|]]; simpl; try reflexivity.
  destruct (g b) as [log'' r]. rewrite app_assoc. reflexivity.
Qed.

Lemma bind_ext {A B} (m : M A) (k k' : A -> M B) :
  (forall a, k a = k' a) -> bind m k = bind m k'.
Proof.
  intros H. destruct m as [log [a|e|]]; simpl; try reflexivity.
  rewrite H. reflexivity.
Qed.

Lemma for_smiles_mapM (dest : Connection) (fp : Fp) (mol_field table : string)
    (smiles : list Query) :
  forall all_res,
    for_smiles dest fp mol_field table smiles all_res
    = (rows <- mapM (query_row dest fp mol_field table) smiles ;;
       ret (all_res ++ rows)).
Proof.
  induction smiles as [|[mol_id smi] smiles IH]; intros all_res;
    cbn [for_smiles mapM].
  - rewrite bind_ret_l, app_nil_r. reflexivity.
  - unfold query_row at 1. cbn [snd]. rewrite !bind_assoc.
    apply bind_ext. intros res. rewrite !bind_assoc.
    apply bind_ext. intros r. rewrite bind_ret_l, bind_assoc, IH.
    apply bind_ext. intros rows. rewrite bind_ret_l, <- app_assoc.
    reflexivity.
Qed.

Section MapM.

Context {A B : Type}.
Variable f : A -> M B.

Lemma mapM_ok (l : list A) (ys : list B) :
  Forall2 (fun x y => result (f x) = Ok y) l ys ->
  mapM f l = (flat_map (fun x => calls (f x)) l, Ok ys).
Proof.
  induction 1 as [|x y l ys Hx _ IH]; simpl; [reflexivity|].
  rewrite IH. destruct (f x) as [log o]. simpl in Hx. subst o. simpl.
  rewrite app_nil_r. reflexivity.
Qed.

Lemma mapM_stops (pre post : list A) (x : A) (ys : list B) (o : outcome B) :
  Forall2 (fun x y => result (f x) = Ok y) pre ys ->
  result (f x) = o ->
  (forall y, o <> Ok y) ->
  exists o' : outcome (list B),
    mapM f (pre ++ x :: post)
    = (flat_map (fun x => calls (f x)) pre ++ calls (f x), o') /\
    match o with
    | Ok _ => False
    | Raise e => o' = Raise e
    | Hang => o' = Hang
    end.
Proof.
  intros Hpre Hx Ho. induction Hpre as [|x' y pre ys Hx' _ IH]; simpl.
  - destruct (f x) as [log o0]. simpl in Hx. subst o0.
    destruct o as [y|e|]; [destruct (Ho y eq_refl)| |]; simpl;
      eexists; (split; [reflexivity|]); reflexivity.
  - destruct IH as (o' & IH & Ho'). rewrite IH.
    destruct (f x') as [log' o0]. simpl in Hx'. subst o0.
    destruct o as [?|e|]; [destruct Ho'| |]; subst o'; simpl;
      rewrite <- app_assoc; eexists; (split; [reflexivity|]); reflexivity.
Qed.

(** A run of [mapM] goes through a prefix of the list, and stops at the
    first element on which [f] does not return. *)
Lemma mapM_cases (l : list A) :
  (exists ys, Forall2 (fun x y => result (f x) = Ok y) l ys) \/
  (exists pre x post ys,
      l = pre ++ x :: post /\
      Forall2 (fun x y => result (f x) = Ok y) pre ys /\
      forall y, result (f x) <> Ok y).
Proof.
  induction l as [|x l IH].
  - left. exists []. constructor.
  - destruct (result (f x)) as [y|e|] eqn:Hx.
    + destruct IH as [(ys & IH)|(pre & x' & post & ys & -> & Hpre & Hx')].
      * left. exists (y :: ys). constructor; assumption.
      * right. exists (x :: pre), x', post, (y :: ys).
        repeat split; try assumption. constructor; assumption.
    + right. exists [], x, l, []. repeat split; [constructor|].
      intros y. rewrite Hx. discriminate.
    + right. exists [], x, l, []. repeat split; [constructor|].
      intros y. rewrite Hx. discriminate.
Qed.

Lemma mapM_ok_inv (l : list A) (ys : list B) :
  result (mapM f l) = Ok ys ->
  Forall2 (fun x y => result (f x) = Ok y) l ys.
Proof.
  intros H.
  destruct (mapM_cases l) as [(ys' & Hall)|(pre & x & post & ys' & -> & Hpre & Hx)].
  - rewrite (mapM_ok _ _ Hall) in H. injection H as <-. assumption.
  - destruct (mapM_stops pre post x ys' (result (f x)) Hpre eq_refl Hx)
      as (o' & Heq & Ho').
    rewrite Heq in H. simpl in H. subst o'.
    destruct (result (f x)) as [y|e|]; [destruct Ho' | discriminate..].
Qed.

End MapM.

Lemma bind_ret_r {A} (m : M A) : bind m (fun x => ret x) = m.
Proof.
  destruct m as [log [a|e|]]; simpl; try reflexivity.
  rewrite app_nil_r. reflexivity.
Qed.

Section Worker.

Variable dest : Connection.
Variable fp : Fp.
Variables mol_field table : string.

Let sql : Sql := worker_sql fp mol_field table.
Let search (q : Query) : M (option (list Row)) :=
  get_similarity dest fp mol_field table (snd q) (Some 1%Z).
Let row (q : Query) : M MatchRow := query_row dest fp mol_field table q.

(** The three ways the body of the loop ends for a query: a row, the
    [TypeError] of [None[0]], or the exception of the engine. *)
Lemma query_row_cases (q : Query) :
  calls (row q) = calls (search q) /\
  ((exists r rows t,
       In t thresholds /\ dest sql (snd q) t = Rows (r :: rows) /\
       result (search q) = Ok (Some (r :: rows)) /\
       result (row q) = Ok (tuple_add r q)) \/
   (Forall (fun t => dest sql (snd q) t = Rows []) thresholds /\
    result (search q) = Ok None /\
    result (row q) = Raise TypeError) \/
   (exists e t,
       In t thresholds /\ dest sql (snd q) t = Fails e /\
       result (search q) = Raise e /\
       result (row q) = Raise e)).
Proof.
  unfold row, query_row, search, sql, worker_sql.
  destruct (get_similarity_cases dest fp mol_field table (snd q) (Some 1%Z))
    as [[Hall ->]|(pre & t & post & Heq & _ &
                   [(r & rows & Ht & ->)|(e & Ht & ->)])]; simpl.
  - split; [reflexivity|]. right. left. auto.
  - assert (Hin : In t thresholds).
    { rewrite Heq. apply in_or_app. right. left. reflexivity. }
    rewrite !app_nil_r. split; [reflexivity|]. left.
    exists r, rows, t. auto.
  - assert (Hin : In t thresholds).
    { rewrite Heq. apply in_or_app. right. left. reflexivity. }
    split; [reflexivity|]. right. right.
    exists e, t. auto.
Qed.

Lemma query_row_no_hang (q : Query) : result (row q) <> Hang.
Proof.
  destruct (query_row_cases q)
    as [_ [(r & rows & t & _ & _ & _ & ->)|[(_ & _ & ->)|(e & t & _ & _ & _ & ->)]]];
    discriminate.
Qed.

Lemma query_row_ok (q : Query) (r : MatchRow) :
  result (row q) = Ok r ->
  exists rw rows t,
    In t thresholds /\ geb t zero = true /\
    dest sql (snd q) t = Rows (rw :: rows) /\
    result (search q) = Ok (Some (rw :: rows)) /\
    r = tuple_add rw q.
Proof.
  intros H.
  destruct (query_row_cases q)
    as [_ [(rw & rows & t & Hin & Ht & Hs & Hr)|[(_ & _ & Hr)|(e & t & _ & _ & _ & Hr)]]];
    rewrite Hr in H; try discriminate.
  injection H as <-. exists rw, rows, t. repeat split; try assumption.
  pose proof thresholds_nonneg as Hnn. rewrite Forall_forall in Hnn. auto.
Qed.

Lemma query_row_limit (q : Query) :
  Forall (fun c => sql_limit (call_sql c) = Some 1%Z /\ call_query c = snd q)
         (calls (row q)).
Proof.
  destruct (query_row_cases q) as [-> _]. unfold search.
  destruct (get_similarity_calls dest fp mol_field table (snd q) (Some 1%Z))
    as (k & -> & _).
  apply Forall_forall. intros c Hc. apply in_map_iff in Hc.
  destruct Hc as (t & <- & _). split; reflexivity.
Qed.

(** A query has a match in the backoff exactly when its search returns
    rows, provided the engine answers. *)
Lemma has_match_iff_found (q : Query) :
  answers dest sql (snd q) ->
  (has_match dest sql (snd q) <-> exists r, result (row q) = Ok r).
Proof.
  intros Hans. split.
  - intros (t & Hin & rw & rows & Ht).
    destruct (query_row_cases q)
      as [_ [(rw' & rows' & t' & _ & _ & _ & Hr)|
             [(Hall & _ & _)|(e & t' & Hin' & Ht' & _ & _)]]].
    + eexists. eassumption.
    + rewrite Forall_forall in Hall. rewrite (Hall _ Hin) in Ht. discriminate.
    + destruct (Hans _ Hin') as [rows' Hrows']. rewrite Hrows' in Ht'.
      discriminate.
  - intros (r & Hr). destruct (query_row_ok q r Hr)
      as (rw & rows & t & Hin & _ & Ht & _ & _).
    exists t. split; [assumption|]. exists rw, rows. assumption.
Qed.

Lemma no_match_TypeError (q : Query) :
  answers dest sql (snd q) ->
  ~ has_match dest sql (snd q) ->
  result (row q) = Raise TypeError.
Proof.
  intros Hans Hno.
  destruct (query_row_cases q)
    as [_ [(rw & rows & t & Hin & Ht & _ & _)|
           [(_ & _ & Hr)|(e & t & Hin & Ht & _ & _)]]].
  - destruct Hno. exists t. split; [assumption|]. exists rw, rows. assumption.
  - assumption.
  - destruct (Hans _ Hin) as [rows Hrows]. rewrite Hrows in Ht. discriminate.
Qed.

End Worker.

Lemma calc_sim_for_smiles_mapM (sqlite3 : Sqlite3) (dest : Connection)
    (smiles : list Query) (db_name : string) (fp : Fp)
    (mol_field table : string) :
  sqlite3 db_name = inr dest ->
  calc_sim_for_smiles sqlite3 smiles db_name fp mol_field table
  = mapM (query_row dest fp mol_field table) smiles.
Proof.
  intros H. unfold calc_sim_for_smiles. rewrite H, for_smiles_mapM.
  simpl app. apply bind_ret_r.
Qed.

Lemma calc_sim_for_smiles_no_connection (sqlite3 : Sqlite3) (e : exn)
    (smiles : list Query) (db_name : string) (fp : Fp)
    (mol_field table : string) :
  sqlite3 db_name = inl e ->
  calc_sim_for_smiles sqlite3 smiles db_name fp mol_field table = ([], Raise e).
Proof. intros H. unfold calc_sim_for_smiles. rewrite H. reflexivity. Qed.

(** Whatever the outcome, [mapM] has run [f] on a prefix of the list, in
    the order of the list. *)
Lemma mapM_calls_prefix {A B} (f : A -> M B) (l : list A) :
  exists n,
    (n <= List.length l)%nat /\
    calls (mapM f l) = flat_map (fun x => calls (f x)) (firstn n l) /\
    ((exists ys, result (mapM f l) = Ok ys) -> n = List.length l).
Proof.
  destruct (mapM_cases f l)
    as [(ys & Hall)|(pre & x & post & ys & -> & Hpre & Hx)].
  - exists (List.length l). rewrite (mapM_ok f _ _ Hall), firstn_all.
    repeat split. lia.
  - destruct (mapM_stops f pre post x ys (result (f x)) Hpre eq_refl Hx)
      as (o' & Heq & Ho').
    exists (S (List.length pre)). rewrite Heq, firstn_app_cons, flat_map_app.
    simpl. rewrite app_nil_r. split; [|split; [reflexivity|]].
    + rewrite length_app. simpl. lia.
    + intros (ys' & Hys'). subst o'.
      destruct (result (f x)); [destruct Ho'|discriminate..].
Qed.




Lemma Forall2_In_left {A B} (R : A -> B -> Prop) (l : list A) (l' : list B)
    (x : A) :
  Forall2 R l l' -> In x l -> exists y, In y l' /\ R x y.
Proof.
  induction 1 as [|a b l l' Hab _ IH]; intros Hin; [destruct Hin|].
  destruct Hin as [<-|Hin].
  - exists b. split; [left; reflexivity|assumption].
  - destruct (IH Hin) as (y & Hy & HR). exists y. split; [right|]; assumption.
Qed.

(** C10. With a connection whose engine answers, [res[0]] is defined
    exactly when every query of the batch has a match at some threshold of
    the backoff: then the worker returns one row per query; otherwise it
    raises the [TypeError] of [None[0]].  It never hangs. *)
Theorem calc_sim_for_smiles_total_iff (sqlite3 : Sqlite3) (dest : Connection)
    (batch : list Query) (db_name : string) (fp : Fp)
    (mol_field table : string) :
  sqlite3 db_name = inr dest ->
  (forall q, In q batch ->
             answers dest (worker_sql fp mol_field table) (snd q)) ->
  let run := calc_sim_for_smiles sqlite3 batch db_name fp mol_field table in
  let matched :=
    Forall (fun q => has_match dest (worker_sql fp mol_field table) (snd q))
           batch in
  (matched ->
   exists all_res,
     result run = Ok all_res /\ List.length all_res = List.length batch) /\
  (~ matched -> result run = Raise TypeError) /\
  ((exists all_res, result run = Ok all_res) -> matched) /\
  result run <> Hang.
Proof.
  intros Hcon Hans run matched. subst run matched.
  rewrite (calc_sim_for_smiles_mapM sqlite3 dest batch db_name fp mol_field
             table Hcon).
  set (row := query_row dest fp mol_field table).
  set (sql := worker_sql fp mol_field table) in *.
  assert (Hok : forall ys,
             Forall2 (fun q r => result (row q) = Ok r) batch ys ->
             Forall (fun q => has_match dest sql (snd q)) batch).
  { intros ys H. apply Forall_forall. intros q Hq.
    apply (has_match_iff_found dest fp mol_field table q (Hans q Hq)).
    destruct (Forall2_In_left _ _ _ q H Hq) as (r & _ & Hr).
    exists r. exact Hr. }
  destruct (mapM_cases row batch)
    as [(ys & Hall)|(pre & x & post & ys & Heq & Hpre & Hx)].
  - rewrite (mapM_ok row _ _ Hall). simpl. repeat split.
    + intros _. exists ys. split; [reflexivity|].
      symmetry. eapply Forall2_length. eassumption.
    + intros Hno. destruct Hno. eapply Hok. eassumption.
    + intros _. eapply Hok. eassumption.
    + discriminate.
  - assert (Hinx : In x batch).
    { rewrite Heq. apply in_or_app. right. left. reflexivity. }
    assert (Hnox : ~ has_match dest sql (snd x)).
    { intros Hm.
      apply (has_match_iff_found dest fp mol_field table x (Hans x Hinx)) in Hm.
      destruct Hm as (r & Hr). apply (Hx r). exact Hr. }
    pose proof (no_match_TypeError dest fp mol_field table x (Hans x Hinx) Hnox)
      as Hte.
    destruct (mapM_stops row pre post x ys (result (row x)) Hpre eq_refl Hx)
      as (o' & Hrun & Ho').
    fold row in Hte. rewrite Hte in Ho'. subst o'.
    rewrite Heq, Hrun. simpl. repeat split.
    + intros Hm. rewrite Forall_forall in Hm.
      destruct Hnox. apply Hm. apply in_or_app. right. left. reflexivity.
    + intros (all_res & H). discriminate.
    + discriminate.
Qed.

Lemma calc_sim_for_smiles_total_iff_witness :
  Example.sqlite3 "chembl.db"%string = inr Example.con /\
  (forall q, In q Example.two_queries ->
             answers Example.con (worker_sql morgan "mol" "mols") (snd q)) /\
  Forall (fun q => has_match Example.con (worker_sql morgan "mol" "mols") (snd q))
         Example.two_queries /\
  exists all_res,
    result (calc_sim_for_smiles Example.sqlite3 Example.two_queries
              "chembl.db" morgan "mol" "mols") = Ok all_res /\
    List.length all_res = List.length Example.two_queries.
Proof.
  assert (Hans : forall q, In q Example.two_queries ->
             answers Example.con (worker_sql morgan "mol" "mols") (snd q)).
  { intros q _. apply example_answers. }
  assert (Hm : Forall (fun q => has_match Example.con
                                  (worker_sql morgan "mol" "mols") (snd q))
                 Example.two_queries).
  { repeat constructor.
    - exists lit_0_7. split; [left; reflexivity|].
      eexists. eexists. vm_compute. reflexivity.
    - exists lit_0_5. split; [right; right; left; reflexivity|].
      eexists. eexists. vm_compute. reflexivity. }
  split; [reflexivity|]. split; [exact Hans|]. split; [exact Hm|].
  destruct (calc_sim_for_smiles_total_iff Example.sqlite3 Example.con
              Example.two_queries "chembl.db" morgan "mol" "mols"
              eq_refl Hans) as (Htotal & _).
  exact (Htotal Hm).
Defined.

(** C1. A query without a match at any threshold of the backoff: the
    search sends its eight statements and returns [None]; the worker then
    raises [TypeError] at [res[0]]; it sends no statement for the query
    after it, and the run ends with that exception and only the header
    line in the output file. *)
Theorem no_match_raises_TypeError :
  let run :=
    calc_sim_for_smiles Example.sqlite3 Example.invalid_second
      "chembl.db" morgan "mol" "mols" in
  get_similarity Example.con morgan "mol" "mols" "XYZ-invalid" (Some 1%Z)
  = (map (mkCall (worker_sql morgan "mol" "mols") "XYZ-invalid") thresholds,
     Ok None) /\
  result run = Raise TypeError /\
  Forall (fun c => call_query c <> "CCCO"%string) (calls run) /\
  main Example.sqlite3 (Example.read_csv Example.with_invalid)
       Example.str_round4 (Example.args 1) [0; 1; 2]%nat
  = ([header], Raise TypeError) /\
  main Example.sqlite3 (Example.read_csv Example.with_invalid)
       Example.str_round4 (Example.args 3) [0]%nat
  = ([header], Raise TypeError).
Proof.
  cbv zeta. repeat split.
  vm_compute. repeat constructor; discriminate.
Qed.

(* ===================================================================== *)
(** ** Chunking *)
(* ===================================================================== *)

Lemma cpu_type_bounds (cpu_count x : Z) :
  (1 <= cpu_type cpu_count x)%Z /\
  (1 <= cpu_count -> cpu_type cpu_count x <= cpu_count)%Z.
Proof. unfold cpu_type. lia. Qed.

Lemma chunked_eq {A} (n : nat) (it : list A) :
  chunked n it
  = match firstn n it with
    | [] => []
    | c => c :: chunked n (skipn n it)
    end.
Proof.
  rewrite chunked_equation_1. generalize (inspect (take n it)).
  intros [[c rest] e]. unfold take in e. injection e as E1 E2. subst rest.
  rewrite E1. destruct c; reflexivity.
Qed.

Lemma chunked_nil {A} (n : nat) : chunked n (@nil A) = [].
Proof. rewrite chunked_eq, firstn_nil. reflexivity. Qed.

Lemma chunked_cons {A} (n : nat) (x : A) (it : list A) :
  chunked (S n) (x :: it)
  = firstn (S n) (x :: it) :: chunked (S n) (skipn (S n) (x :: it)).
Proof. rewrite chunked_eq at 1. reflexivity. Qed.

Lemma chunked_concat {A} (n : nat) (it : list A) :
  (1 <= n)%nat -> List.concat (chunked n it) = it.
Proof.
  intros Hn. remember (List.length it) as m eqn:Hm.
  revert it Hm. induction m as [m IH] using lt_wf_ind. intros it Hm.
  destruct it as [|x it]; [rewrite chunked_nil; reflexivity|].
  destruct n as [|n]; [lia|].
  rewrite chunked_cons. cbn [List.concat].
  rewrite (IH (List.length (skipn (S n) (x :: it)))).
  - apply firstn_skipn.
  - subst m. rewrite length_skipn. simpl. lia.
  - reflexivity.
Qed.

Lemma chunked_nth {A} (n : nat) :
  forall (i : nat) (it : list A) (c : list A),
    nth_error (chunked n it) i = Some c ->
    c = firstn n (skipn (i * n) it) /\ c <> [].
Proof.
  induction i as [|i IH]; intros it c H; rewrite chunked_eq in H.
  - simpl. destruct (firstn n it) as [|x c'] eqn:E; [discriminate|].
    simpl in H. injection H as <-. split; [reflexivity|discriminate].
  - destruct (firstn n it) as [|x c'] eqn:E; [discriminate|].
    simpl in H. destruct (IH _ _ H) as [-> Hne].
    rewrite skipn_skipn in *.
    replace (S i * n)%nat with (i * n + n)%nat by lia.
    split; [reflexivity|assumption].
Qed.

(** C5. For [W >= 1], the chunks are consecutive slices of the queries:
    chunk [i] is made of the queries at the positions from [i * W] up to
    [(i + 1) * W], every chunk but possibly the last has [W] queries, no
    chunk is empty, and the chunks put one after the other are the
    queries. *)
Theorem chunked_partition {A} (W : nat) (queries : list A) :
  (1 <= W)%nat ->
  List.concat (chunked W queries) = queries /\
  forall (i : nat) (chunk : list A),
    nth_error (chunked W queries) i = Some chunk ->
    chunk = firstn W (skipn (i * W) queries) /\
    (forall j, (j < W)%nat ->
               nth_error chunk j = nth_error queries (i * W + j)) /\
    (1 <= List.length chunk <= W)%nat /\
    ((S i < List.length (chunked W queries))%nat -> List.length chunk = W).
Proof.
  intros HW. split; [apply chunked_concat; assumption|].
  intros i chunk Hi. destruct (chunked_nth W i queries chunk Hi) as [Heq Hne].
  split; [assumption|]. split; [|split].
  - intros j Hj. rewrite Heq, nth_error_firstn.
    destruct (Nat.ltb_spec j W); [|lia]. apply nth_error_skipn.
  - split.
    + destruct chunk; [destruct Hne; reflexivity|simpl; lia].
    + rewrite Heq, length_firstn. lia.
  - intros Hnext.
    destruct (nth_error (chunked W queries) (S i)) as [c'|] eqn:Hc'.
    + destruct (chunked_nth W (S i) queries c' Hc') as [Heq' Hne'].
      assert (Hlen : (S i * W < List.length queries)%nat).
      { destruct (Nat.lt_ge_cases (S i * W) (List.length queries)) as [H|H];
          [assumption|].
        rewrite skipn_all2 in Heq' by assumption.
        rewrite firstn_nil in Heq'. contradiction. }
      rewrite Heq, length_firstn, length_skipn. lia.
    + apply nth_error_None in Hc'. lia.
Qed.

Lemma chunked_partition_witness :
  (1 <= 2)%nat /\
  chunked 2 [1; 2; 3; 4; 5]%nat = [[1; 2]; [3; 4]; [5]]%nat /\
  List.concat (chunked 2 [1; 2; 3; 4; 5]%nat) = [1; 2; 3; 4; 5]%nat.
Proof.
  split; [lia|]. split; [reflexivity|].
  apply (chunked_partition 2 [1; 2; 3; 4; 5]%nat). lia.
Defined.

(* ===================================================================== *)
(** ** The process pool *)
(* ===================================================================== *)

Lemma length_set_nth {A} (i : nat) (x : A) (l : list A) :
  List.length (set_nth i x l) = List.length l.
Proof.
  revert i. induction l as [|y l IH]; intros [|i]; simpl; auto.
Qed.

Lemma nth_error_set_nth {A} (i j : nat) (x : A) (l : list A) :
  nth_error (set_nth i x l) j
  = if (j =? i)%nat && (i <? List.length l)%nat then Some x
    else nth_error l j.
Proof.
  revert i j. induction l as [|y l IH]; intros i j.
  - simpl. rewrite andb_false_r. destruct i; reflexivity.
  - destruct i as [|i], j as [|j]; simpl; try reflexivity.
    rewrite IH. reflexivity.
Qed.

Lemma complete_length {A} (tasks : list (outcome A)) (completion : list nat) :
  forall fs, List.length (complete tasks completion fs) = List.length fs.
Proof.
  induction completion as [|i completion IH]; intros fs; simpl; [reflexivity|].
  rewrite IH. destruct (nth_error tasks i); [apply length_set_nth|reflexivity].
Qed.

(** After the completions, the future of a completed call holds its
    outcome, and the other futures are as they were. *)
Lemma complete_nth {A} (tasks : list (outcome A)) (completion : list nat) :
  forall (fs : list (Future A)) (i : nat),
    List.length fs = List.length tasks ->
    nth_error (complete tasks completion fs) i
    = if existsb (Nat.eqb i) completion
      then option_map Some (nth_error tasks i)
      else nth_error fs i.
Proof.
  unfold Future.
  induction completion as [|j completion IH]; intros fs i Hlen; simpl;
    [reflexivity|].
  rewrite IH by (destruct (nth_error tasks j);
                 [rewrite length_set_nth|]; assumption).
  destruct (existsb (Nat.eqb i) completion); [rewrite orb_true_r; reflexivity|].
  rewrite orb_false_r.
  destruct (nth_error tasks j) as [r|] eqn:Hj.
  - rewrite nth_error_set_nth.
    assert (Hlt : (j < List.length fs)%nat).
    { rewrite Hlen. apply nth_error_Some. congruence. }
    destruct (Nat.ltb_spec j (List.length fs)); [|lia].
    rewrite andb_true_r.
    destruct (Nat.eqb_spec i j) as [->|_]; [rewrite Hj|]; reflexivity.
  - destruct (Nat.eqb_spec i j) as [->|_]; [|reflexivity].
    rewrite Hj. simpl. apply nth_error_None.
    rewrite Hlen. apply nth_error_None. assumption.
Qed.

(** With a pool that completes every call, the futures of [Executor.map]
    hold the outcomes of the calls in the order of submission, whatever the
    order of completion. *)
Lemma executor_map_fair {A B} (fn : A -> outcome B) (iterable : list A)
    (completion : list nat) :
  fair (List.length iterable) completion ->
  executor_map fn iterable completion = map (fun x => Some (fn x)) iterable.
Proof.
  intros Hfair. unfold executor_map. apply nth_error_ext. intros i.
  rewrite complete_nth by apply repeat_length.
  rewrite length_map.
  destruct (existsb (Nat.eqb i) completion) eqn:Hin.
  - rewrite !nth_error_map. destruct (nth_error iterable i); reflexivity.
  - assert (Hge : (List.length iterable <= i)%nat).
    { destruct (Nat.lt_ge_cases i (List.length iterable)) as [Hlt|]; [|assumption].
      assert (Hi : In i completion).
      { eapply Permutation_in; [symmetry; exact Hfair|].
        apply in_seq. lia. }
      assert (Htrue : existsb (Nat.eqb i) completion = true).
      { apply existsb_exists. exists i. split; [assumption|apply Nat.eqb_refl]. }
      congruence. }
    transitivity (@None (option (outcome B))).
    + apply nth_error_None. rewrite repeat_length. assumption.
    + symmetry. apply nth_error_None. rewrite length_map. assumption.
Qed.

Section Sum.

Context {B : Type}.

Let done (outs : list (outcome (list B))) : list (Future (list B)) :=
  map Some outs.

Lemma sum_all_ok (outs : list (outcome (list B))) (vs : list (list B)) :
  Forall2 (fun o v => o = Ok v) outs vs ->
  forall start, sum (done outs) start = Ok (start ++ List.concat vs).
Proof.
  induction 1 as [|o v outs vs Ho _ IH]; intros start; simpl.
  - rewrite app_nil_r. reflexivity.
  - subst o. rewrite IH, app_assoc. reflexivity.
Qed.

Lemma sum_ok_inv (outs : list (outcome (list B))) :
  forall start rows,
    sum (done outs) start = Ok rows ->
    exists vs,
      Forall2 (fun o v => o = Ok v) outs vs /\
      rows = start ++ List.concat vs.
Proof.
  induction outs as [|o outs IH]; intros start rows H; simpl in H.
  - injection H as <-. exists []. split; [constructor|].
    simpl. rewrite app_nil_r. reflexivity.
  - destruct o as [v|e|]; try discriminate.
    destruct (IH _ _ H) as (vs & Hvs & ->).
    exists (v :: vs). split; [constructor; auto|].
    simpl. rewrite app_assoc. reflexivity.
Qed.

(** The exception that comes out of [sum] is that of the first call, in
    the order of submission, that raised. *)
Lemma sum_first_raise (outs : list (outcome (list B))) :
  Forall (fun o => o <> Hang) outs ->
  forall i e start,
    nth_error outs i = Some (Raise e) ->
    exists j e',
      (j <= i)%nat /\
      nth_error outs j = Some (Raise e') /\
      (forall k, (k < j)%nat -> exists v, nth_error outs k = Some (Ok v)) /\
      sum (done outs) start = Raise e'.
Proof.
  induction 1 as [|o outs Ho _ IH]; intros i e start Hi.
  - destruct i; discriminate.
  - destruct o as [v|e0|]; [| |destruct Ho; reflexivity].
    + destruct i as [|i]; [discriminate|]. simpl in Hi.
      destruct (IH i e (start ++ v) Hi) as (j & e' & Hj & Hnth & Hbefore & Hsum).
      exists (S j), e'. repeat split; [lia|assumption| |assumption].
      intros [|k] Hk; [exists v; reflexivity|]. apply Hbefore. lia.
    + exists 0%nat, e0. repeat split; [lia|]. intros k Hk. lia.
Qed.

End Sum.

Lemma Forall2_map_left {A B C} (R : B -> C -> Prop) (g : A -> B)
    (l : list A) (l' : list C) :
  Forall2 R (map g l) l' <-> Forall2 (fun x y => R (g x) y) l l'.
Proof.
  revert l'. induction l as [|x l IH]; intros l'; simpl; split; intros H;
    inversion H; subst; constructor; try assumption; apply IH; assumption.
Qed.

Lemma Forall2_concat {A B} (R : A -> B -> Prop) (ls : list (list A))
    (ls' : list (list B)) :
  Forall2 (Forall2 R) ls ls' ->
  Forall2 R (List.concat ls) (List.concat ls').
Proof.
  induction 1 as [|l l' ls ls' Hl _ IH]; simpl; [constructor|].
  apply Forall2_app; assumption.
Qed.

Lemma mapM_no_hang {A B} (f : A -> M B) (l : list A) :
  (forall x, result (f x) <> Hang) -> result (mapM f l) <> Hang.
Proof.
  intros Hf.
  destruct (mapM_cases f l)
    as [(ys & Hall)|(pre & x & post & ys & -> & Hpre & Hx)].
  - rewrite (mapM_ok f _ _ Hall). discriminate.
  - destruct (mapM_stops f pre post x ys (result (f x)) Hpre eq_refl Hx)
      as (o' & -> & Ho').
    simpl. specialize (Hf x).
    destruct (result (f x)); [destruct Ho'|subst o'; discriminate|].
    destruct Hf. reflexivity.
Qed.

(* ===================================================================== *)
(** ** The run *)
(* ===================================================================== *)

Section Run.

Variable sqlite3 : Sqlite3.
Variable read_csv : string -> DataFrame.
Variable str_round4 : float -> string.
Variable args : Args.

Let chunks : list (list Query) := chunked (ncpu args) (queries read_csv args).

Let worker (smiles : list Query) : outcome (list MatchRow) :=
  result (calc_sim_for_smiles sqlite3 smiles (input_db args) (fp args)
            (mol_field args) (table args)).

Let row (dest : Connection) : Query -> M MatchRow :=
  query_row dest (fp args) (mol_field args) (table args).

Lemma match_results_fair (completion : list nat) :
  fair (List.length chunks) completion ->
  match_results sqlite3 read_csv args completion
  = sum (map Some (map worker chunks)) [].
Proof.
  intros Hfair. unfold match_results. fold chunks.
  rewrite executor_map_fair by assumption.
  rewrite map_map. reflexivity.
Qed.

Lemma worker_no_hang (smiles : list Query) : worker smiles <> Hang.
Proof.
  unfold worker.
  destruct (sqlite3 (input_db args)) as [e|dest] eqn:Hcon.
  - rewrite (calc_sim_for_smiles_no_connection sqlite3 e) by assumption. discriminate.
  - rewrite (calc_sim_for_smiles_mapM sqlite3 dest) by assumption.
    apply mapM_no_hang. intros q. apply query_row_no_hang.
Qed.

Lemma worker_ok_inv (smiles : list Query) (rows : list MatchRow) :
  worker smiles = Ok rows ->
  exists dest,
    sqlite3 (input_db args) = inr dest /\
    Forall2 (fun q r => result (row dest q) = Ok r) smiles rows.
Proof.
  unfold worker. intros H.
  destruct (sqlite3 (input_db args)) as [e|dest] eqn:Hcon.
  - rewrite (calc_sim_for_smiles_no_connection sqlite3 e) in H by assumption.
    discriminate.
  - rewrite (calc_sim_for_smiles_mapM sqlite3 dest) in H by assumption.
    exists dest. split; [reflexivity|]. apply mapM_ok_inv. assumption.
Qed.

(** A run that returns has, for each query and in the order of the
    queries, the row of that query. *)
Lemma match_results_ok_inv (completion : list nat) (rows : list MatchRow) :
  (1 <= ncpu args)%nat ->
  fair (List.length chunks) completion ->
  match_results sqlite3 read_csv args completion = Ok rows ->
  Forall2 (fun q r =>
             exists dest,
               sqlite3 (input_db args) = inr dest /\
               result (row dest q) = Ok r)
          (queries read_csv args) rows.
Proof.
  intros Hn Hfair H. rewrite match_results_fair in H by assumption.
  destruct (sum_ok_inv _ _ _ H) as (vs & Hvs & ->). simpl.
  rewrite <- (chunked_concat (ncpu args) (queries read_csv args) Hn).
  fold chunks. apply Forall2_concat.
  apply Forall2_map_left in Hvs.
  eapply Forall2_impl; [|exact Hvs].
  intros c v Hc. cbv beta in Hc.
  destruct (worker_ok_inv c v Hc) as (dest & Hcon & Hrows).
  eapply Forall2_impl; [|exact Hrows].
  intros q r Hr. exists dest. split; assumption.
Qed.

(** The statements of a worker all have LIMIT 1. *)
Lemma worker_calls_limit (smiles : list Query) :
  Forall (fun c => sql_limit (call_sql c) = Some 1%Z)
         (calls (calc_sim_for_smiles sqlite3 smiles (input_db args) (fp args)
                   (mol_field args) (table args))).
Proof.
  destruct (sqlite3 (input_db args)) as [e|dest] eqn:Hcon.
  - rewrite (calc_sim_for_smiles_no_connection sqlite3 e) by assumption. constructor.
  - rewrite (calc_sim_for_smiles_mapM sqlite3 dest) by assumption.
    destruct (mapM_calls_prefix (row dest) smiles) as (n & _ & Hpre & _).
    unfold row in Hpre. rewrite Hpre.
    apply Forall_flat_map. apply Forall_forall. intros q _.
    eapply Forall_impl; [|apply query_row_limit].
    intros c [Hc _]. exact Hc.
Qed.

End Run.

Lemma origin_tuple_add (rw : Row) (q : Query) : origin (tuple_add rw q) = q.
Proof. destruct rw as [[a b] c], q as [m s]. reflexivity. Qed.

Lemma reference_tuple_add (rw : Row) (q : Query) :
  reference (tuple_add rw q) = rw.
Proof. destruct rw as [[a b] c], q as [m s]. reflexivity. Qed.

Lemma Forall2_map_eq {A B} (g : B -> A) (l : list A) (l' : list B) :
  Forall2 (fun x y => g y = x) l l' -> map g l' = l.
Proof. induction 1; simpl; congruence. Qed.

(** C3 as stated fails.  Two chunks of two queries, and a pool in which the
    second chunk completes before the first: the results are not put
    together in the order of completion; they are in the order of the
    queries. *)
Lemma completion_order_counterexample :
  let args := Example.args 2 in
  let read_csv := Example.read_csv Example.four_queries in
  let chunks := chunked (ncpu args) (queries read_csv args) in
  let worker := fun smiles =>
    result (calc_sim_for_smiles Example.sqlite3 smiles (input_db args)
              (fp args) (mol_field args) (table args)) in
  List.length chunks = 2%nat /\
  fair (List.length chunks) [1; 0]%nat /\
  (exists rows,
      match_results Example.sqlite3 read_csv args [1; 0]%nat = Ok rows /\
      map origin rows = queries read_csv args) /\
  (exists rows,
      completion_order_results (map worker chunks) [1; 0]%nat = Ok rows /\
      map origin rows <> queries read_csv args) /\
  match_results Example.sqlite3 read_csv args [1; 0]%nat
  <> completion_order_results (map worker chunks) [1; 0]%nat.
Proof.
  cbv zeta. split; [reflexivity|]. split.
  { unfold fair. change (Permutation [1; 0]%nat [0; 1]%nat). apply perm_swap. }
  split; [|split].
  - eexists. split; [vm_compute; reflexivity|]. vm_compute. reflexivity.
  - eexists. split; [vm_compute; reflexivity|]. vm_compute. discriminate.
  - vm_compute. discriminate.
Qed.

(** C3, amended. With a pool that completes every chunk, the results of
    the chunks are put together in the order of submission, whatever the
    order of completion: two runs that differ only in the order of
    completion write the same file, and the result rows of a run that
    returns follow the order of the queries. *)
Theorem match_results_submission_order (sqlite3 : Sqlite3)
    (read_csv : string -> DataFrame) (str_round4 : float -> string)
    (args : Args) (completion completion' : list nat) :
  let n := List.length (chunked (ncpu args) (queries read_csv args)) in
  (1 <= ncpu args)%nat ->
  fair n completion ->
  fair n completion' ->
  main sqlite3 read_csv str_round4 args completion
  = main sqlite3 read_csv str_round4 args completion' /\
  forall rows,
    match_results sqlite3 read_csv args completion = Ok rows ->
    map origin rows = queries read_csv args.
Proof.
  intros n Hn Hfair Hfair'. subst n. split.
  - unfold main.
    rewrite (match_results_fair sqlite3 read_csv args completion Hfair).
    rewrite (match_results_fair sqlite3 read_csv args completion' Hfair').
    reflexivity.
  - intros rows Hrows. apply Forall2_map_eq.
    eapply Forall2_impl;
      [|exact (match_results_ok_inv sqlite3 read_csv args completion rows
                 Hn Hfair Hrows)].
    intros q r (dest & _ & Hr). cbv beta in Hr.
    destruct (query_row_ok dest (fp args) (mol_field args) (table args) q r Hr)
      as (rw & rest & t & _ & _ & _ & _ & ->).
    apply origin_tuple_add.
Qed.

Lemma match_results_submission_order_witness :
  (1 <= ncpu (Example.args 2))%nat /\
  fair 2 [1; 0]%nat /\
  fair 2 [0; 1]%nat /\
  main Example.sqlite3 (Example.read_csv Example.four_queries)
       Example.str_round4 (Example.args 2) [1; 0]%nat
  = main Example.sqlite3 (Example.read_csv Example.four_queries)
         Example.str_round4 (Example.args 2) [0; 1]%nat.
Proof.
  assert (H10 : fair 2 [1; 0]%nat) by apply perm_swap.
  assert (H01 : fair 2 [0; 1]%nat) by apply Permutation_refl.
  split; [simpl; lia|]. split; [exact H10|]. split; [exact H01|].
  apply (match_results_submission_order Example.sqlite3
           (Example.read_csv Example.four_queries) Example.str_round4
           (Example.args 2) [1; 0]%nat [0; 1]%nat);
    [simpl; lia | exact H10 | exact H01].
Defined.

Lemma select_limit_1 (db : Chemicalite.Database) (sql : Sql) (query : string)
    (t : float) (rows : list Row) :
  sql_limit sql = Some 1%Z ->
  Chemicalite.select db sql query t = Rows rows ->
  (List.length rows <= 1)%nat.
Proof.
  unfold Chemicalite.select. intros Hl H.
  destruct (_ && _); [|discriminate]. injection H as <-.
  rewrite Hl. unfold Chemicalite.apply_limit.
  change (1 <? 0)%Z with false. cbv iota. rewrite length_firstn. lia.
Qed.

(** C9. The [limit] option is not used: two runs that differ only in its
    value write the same file and end the same way; whatever its value,
    every statement a worker sends has LIMIT 1, and such a statement
    fetches at most one row. *)
Theorem limit_option_unused (sqlite3 : Sqlite3)
    (read_csv : string -> DataFrame) (str_round4 : float -> string)
    (args : Args) (completion : list nat) (l1 l2 : option Z) :
  main sqlite3 read_csv str_round4 (set_limit l1 args) completion
  = main sqlite3 read_csv str_round4 (set_limit l2 args) completion
  /\
  match_results sqlite3 read_csv (set_limit l1 args) completion
  = match_results sqlite3 read_csv (set_limit l2 args) completion
  /\
  (forall smiles,
      Forall (fun c => sql_limit (call_sql c) = Some 1%Z)
             (calls (calc_sim_for_smiles sqlite3 smiles
                       (input_db (set_limit l1 args))
                       (fp (set_limit l1 args))
                       (mol_field (set_limit l1 args))
                       (table (set_limit l1 args)))))
  /\
  (forall db c rows,
      sql_limit (call_sql c) = Some 1%Z ->
      Chemicalite.select db (call_sql c) (call_query c) (call_threshold c)
      = Rows rows ->
      (List.length rows <= 1)%nat).
Proof.
  split; [reflexivity|]. split; [reflexivity|]. split.
  - intros smiles. apply worker_calls_limit.
  - intros db c rows. apply select_limit_1.
Qed.

(** C8. Three queries, the second without a match, and two workers.  The
    engine answers every statement, so no fatal error occurs, and the first
    and the third query have a match; yet the run does not return with one
    row for each of them: the worker of the first chunk raises [TypeError],
    the run ends with it, and no result row is written, not even the row of
    the third query, whose chunk has no unmatched query. *)
Theorem unmatched_query_aborts_run :
  let args := Example.args 2 in
  let read_csv := Example.read_csv Example.with_invalid in
  let sql := worker_sql morgan "mol" "mols" in
  (forall q, In q (queries read_csv args) -> answers Example.con sql (snd q)) /\
  has_match Example.con sql "CCO" /\
  has_match Example.con sql "CCCO" /\
  ~ has_match Example.con sql "XYZ-invalid" /\
  chunked (ncpu args) (queries read_csv args)
  = [[("q1", "CCO"); ("q2", "XYZ-invalid")]; [("q3", "CCCO")]]%string /\
  result (calc_sim_for_smiles Example.sqlite3 [("q3", "CCCO")%string]
            (input_db args) (fp args) (mol_field args) (table args))
  = Ok [("CCO", "ref1", lit_0_55, "q3", "CCCO")%string] /\
  main Example.sqlite3 read_csv Example.str_round4 args [1; 0]%nat
  = ([header], Raise TypeError) /\
  forall lines,
    main Example.sqlite3 read_csv Example.str_round4 args [1; 0]%nat
    <> (lines, Ok tt).
Proof.
  cbv zeta. split; [intros q _; apply example_answers|].
  split.
  { exists lit_0_7. split; [left; reflexivity|].
    eexists. eexists. vm_compute. reflexivity. }
  split.
  { exists lit_0_5. split; [right; right; left; reflexivity|].
    eexists. eexists. vm_compute. reflexivity. }
  split.
  { intros (t & _ & r & rows & Ht). unfold Example.con, Chemicalite.select in Ht.
    simpl in Ht. discriminate. }
  split; [reflexivity|]. split; [vm_compute; reflexivity|].
  split; [vm_compute; reflexivity|].
  intros lines H. vm_compute in H. discriminate.
Qed.

(** X20. A run that returns has written, after the header, one line per
    query, in the order of the queries: there are as many result rows as
    queries, and the row of a query is a row found for it at a threshold
    of the backoff, which is at least 0, followed by the query's id and
    smiles. *)
Theorem completed_run_rows (sqlite3 : Sqlite3)
    (read_csv : string -> DataFrame) (str_round4 : float -> string)
    (args : Args) (completion : list nat) (lines : list string) :
  let qs := queries read_csv args in
  let sql := worker_sql (fp args) (mol_field args) (table args) in
  (1 <= ncpu args)%nat ->
  fair (List.length (chunked (ncpu args) qs)) completion ->
  main sqlite3 read_csv str_round4 args completion = (lines, Ok tt) ->
  exists rows,
    match_results sqlite3 read_csv args completion = Ok rows /\
    lines = header :: map (write_row str_round4) rows /\
    List.length rows = List.length qs /\
    Forall2 (fun q r =>
               exists dest rw rest t,
                 sqlite3 (input_db args) = inr dest /\
                 In t thresholds /\ geb t zero = true /\
                 dest sql (snd q) t = Rows (rw :: rest) /\
                 r = tuple_add rw q)
            qs rows.
Proof.
  intros qs sql Hn Hfair Hmain. unfold main in Hmain.
  destruct (match_results sqlite3 read_csv args completion) as [rows|e|] eqn:Hres;
    try discriminate.
  injection Hmain as <-. exists rows.
  pose proof (match_results_ok_inv sqlite3 read_csv args completion rows
                Hn Hfair Hres) as Hrows.
  fold qs in Hrows.
  assert (Hfound : Forall2 (fun q r =>
               exists dest rw rest t,
                 sqlite3 (input_db args) = inr dest /\
                 In t thresholds /\ geb t zero = true /\
                 dest sql (snd q) t = Rows (rw :: rest) /\
                 r = tuple_add rw q) qs rows).
  { eapply Forall2_impl; [|exact Hrows].
    intros q r (dest & Hcon & Hr). cbv beta in Hr.
    destruct (query_row_ok dest (fp args) (mol_field args) (table args) q r Hr)
      as (rw & rest & t & Hin & Hge & Ht & _ & ->).
    exists dest, rw, rest, t. auto. }
  pose proof (Forall2_length Hfound) as Hlen.
  split; [reflexivity|]. split; [reflexivity|].
  split; [symmetry; exact Hlen|exact Hfound].
Qed.

Lemma completed_run_rows_witness :
  (1 <= ncpu (Example.args 2))%nat /\
  fair 2 [1; 0]%nat /\
  exists rows,
    match_results Example.sqlite3 (Example.read_csv Example.four_queries)
      (Example.args 2) [1; 0]%nat = Ok rows /\
    List.length rows = 4%nat.
Proof.
  assert (H10 : fair 2 [1; 0]%nat) by apply perm_swap.
  split; [simpl; lia|]. split; [exact H10|].
  destruct (completed_run_rows Example.sqlite3
              (Example.read_csv Example.four_queries) Example.str_round4
              (Example.args 2) [1; 0]%nat
              (fst (main Example.sqlite3 (Example.read_csv Example.four_queries)
                      Example.str_round4 (Example.args 2) [1; 0]%nat)))
    as (rows & Hres & _ & Hlen & _); [simpl; lia | exact H10 | reflexivity |].
  exists rows. split; [exact Hres|exact Hlen].
Defined.

Section Propagation.

Variable dest : Connection.
Variable fp : Fp.
Variables mol_field table : string.

Let search (q : Query) : M (option (list Row)) :=
  get_similarity dest fp mol_field table (snd q) (Some 1%Z).
Let row : Query -> M MatchRow := query_row dest fp mol_field table.

Lemma search_found_row (q : Query) (rw : Row) (rows : list Row) :
  result (search q) = Ok (Some (rw :: rows)) ->
  result (row q) = Ok (tuple_add rw q).
Proof.
  intros H.
  destruct (query_row_cases dest fp mol_field table q)
    as [_ [(r & rows' & t & _ & _ & Hs & Hr)|
           [(_ & Hs & _)|(e & t & _ & _ & Hs & _)]]];
    fold (search q) in Hs; rewrite Hs in H; try discriminate.
  injection H as <- _. exact Hr.
Qed.

Lemma search_raise_row (q : Query) (e : exn) :
  result (search q) = Raise e -> result (row q) = Raise e.
Proof.
  intros H.
  destruct (query_row_cases dest fp mol_field table q)
    as [_ [(r & rows' & t & _ & _ & Hs & _)|
           [(_ & Hs & _)|(e' & t & _ & _ & Hs & Hr)]]];
    fold (search q) in Hs; rewrite Hs in H; try discriminate.
  injection H as <-. exact Hr.
Qed.

Lemma found_rows (pre : list Query) :
  Forall (fun q => exists rw rows, result (search q) = Ok (Some (rw :: rows)))
         pre ->
  exists ys, Forall2 (fun q r => result (row q) = Ok r) pre ys.
Proof.
  induction 1 as [|q pre (rw & rows & Hq) _ (ys & IH)].
  - exists []. constructor.
  - exists (tuple_add rw q :: ys). constructor; [|assumption].
    eapply search_found_row. eassumption.
Qed.

(** An exception of the engine goes through the search and through the
    worker: the worker stops at the query, with that exception. *)
Lemma worker_propagates (sqlite3 : Sqlite3) (db_name : string)
    (pre post : list Query) (q : Query) (e : exn) :
  sqlite3 db_name = inr dest ->
  Forall (fun q => exists rw rows, result (search q) = Ok (Some (rw :: rows)))
         pre ->
  result (search q) = Raise e ->
  calc_sim_for_smiles sqlite3 (pre ++ q :: post) db_name fp mol_field table
  = (flat_map (fun q => calls (search q)) (pre ++ [q]), Raise e).
Proof.
  intros Hcon Hpre Hq.
  rewrite (calc_sim_for_smiles_mapM sqlite3 dest) by assumption.
  destruct (found_rows pre Hpre) as (ys & Hys).
  destruct (mapM_stops row pre post q ys (Raise e) Hys
              (search_raise_row q e Hq)) as (o' & Hrun & ->);
    [discriminate|].
  unfold row in Hrun. rewrite Hrun. f_equal.
  rewrite flat_map_app. simpl. rewrite app_nil_r. f_equal.
  - apply flat_map_ext. intros q'.
    apply (query_row_cases dest fp mol_field table q').
  - apply (query_row_cases dest fp mol_field table q).
Qed.

(** The statement that raised is the last one of the search, and the
    ones before it found nothing: it is not sent again. *)
Lemma search_raise_last (q : Query) (e : exn) :
  result (search q) = Raise e ->
  exists ts t,
    calls (search q)
    = map (mkCall (worker_sql fp mol_field table) (snd q)) (ts ++ [t]) /\
    Forall (fun t' => dest (worker_sql fp mol_field table) (snd q) t' = Rows [])
           ts /\
    dest (worker_sql fp mol_field table) (snd q) t = Fails e.
Proof.
  unfold search, worker_sql. intros H.
  destruct (get_similarity_cases dest fp mol_field table (snd q) (Some 1%Z))
    as [[_ Hg]|(ts & t & post & _ & Hts &
                [(r & rows & _ & Hg)|(e' & Ht & Hg)])];
    rewrite Hg in H; try discriminate.
  injection H as <-. exists ts, t. rewrite Hg. auto.
Qed.

End Propagation.

(** C7 as stated fails.  One worker, two chunks of one query: the first
    query has no match, and the engine becomes unavailable during the
    search for the second.  The adapter of the second chunk raises the
    fatal error, but the run ends with the [TypeError] of the first chunk,
    not with that error. *)
Lemma first_exception_counterexample :
  let args := Example.args 1 in
  let read_csv := Example.read_csv Example.invalid_then_flaky in
  let worker := fun smiles =>
    calc_sim_for_smiles Example.sqlite3_flaky smiles (input_db args) (fp args)
                        (mol_field args) (table args) in
  chunked (ncpu args) (queries read_csv args)
  = [[("q1", "XYZ-invalid")]; [("q2", "CCCO")]]%string /\
  fair 2 [0; 1]%nat /\
  result (get_similarity Example.flaky morgan "mol" "mols" "CCCO" (Some 1%Z))
  = Raise (Sqlite3Error EngineUnavailable) /\
  result (worker [("q2", "CCCO")%string])
  = Raise (Sqlite3Error EngineUnavailable) /\
  main Example.sqlite3_flaky read_csv Example.str_round4 args [0; 1]%nat
  = ([header], Raise TypeError) /\
  main Example.sqlite3_flaky read_csv Example.str_round4 args [0; 1]%nat
  <> ([header], Raise (Sqlite3Error EngineUnavailable)).
Proof.
  cbv zeta. split; [reflexivity|]. split; [apply Permutation_refl|].
  split; [vm_compute; reflexivity|]. split; [vm_compute; reflexivity|].
  split; [vm_compute; reflexivity|]. vm_compute. discriminate.
Qed.

(** C7, amended. When the engine raises a fatal error during the search
    for a query of a chunk, the search raises it after that statement, which is sent
    once; the worker raises it without going to the next query; and the
    run ends with the exception of the first chunk, in the order of
    submission, whose worker raised, with only the header line written:
    no result row is in the output.  This exception is the one of the
    engine when the workers of the chunks before it returned. *)
Theorem fatal_error_aborts_run (sqlite3 : Sqlite3)
    (read_csv : string -> DataFrame) (str_round4 : float -> string)
    (args : Args) (completion : list nat) (dest : Connection) (i : nat)
    (pre post : list Query) (q : Query) (f : fault) :
  let chunks := chunked (ncpu args) (queries read_csv args) in
  let sql := worker_sql (fp args) (mol_field args) (table args) in
  let search := fun q' : Query =>
    get_similarity dest (fp args) (mol_field args) (table args) (snd q')
                   (Some 1%Z) in
  let worker := fun smiles =>
    calc_sim_for_smiles sqlite3 smiles (input_db args) (fp args)
                        (mol_field args) (table args) in
  fair (List.length chunks) completion ->
  sqlite3 (input_db args) = inr dest ->
  nth_error chunks i = Some (pre ++ q :: post) ->
  Forall (fun q' => exists rw rows, result (search q') = Ok (Some (rw :: rows)))
         pre ->
  result (search q) = Raise (Sqlite3Error f) ->
  (exists ts t,
      calls (search q) = map (mkCall sql (snd q)) (ts ++ [t]) /\
      Forall (fun t' => dest sql (snd q) t' = Rows []) ts /\
      dest sql (snd q) t = Fails (Sqlite3Error f)) /\
  worker (pre ++ q :: post)
  = (flat_map (fun q' => calls (search q')) (pre ++ [q]),
     Raise (Sqlite3Error f)) /\
  exists e j c,
    main sqlite3 read_csv str_round4 args completion = ([header], Raise e) /\
    (j <= i)%nat /\
    nth_error chunks j = Some c /\
    result (worker c) = Raise e /\
    (forall k c', (k < j)%nat -> nth_error chunks k = Some c' ->
                  exists rows, result (worker c') = Ok rows) /\
    ((forall k c', (k < i)%nat -> nth_error chunks k = Some c' ->
                   exists rows, result (worker c') = Ok rows) ->
     e = Sqlite3Error f).
Proof.
  intros chunks sql search worker Hfair Hcon Hi Hpre Hq.
  assert (Hworker : worker (pre ++ q :: post)
                    = (flat_map (fun q' => calls (search q')) (pre ++ [q]),
                       Raise (Sqlite3Error f))).
  { apply (worker_propagates dest (fp args) (mol_field args) (table args)
             sqlite3 (input_db args) pre post q (Sqlite3Error f) Hcon Hpre Hq). }
  split; [|split; [exact Hworker|]].
  { apply (search_raise_last dest (fp args) (mol_field args) (table args) q
             (Sqlite3Error f) Hq). }
  set (outs := map (fun c => result (worker c)) chunks).
  assert (Hno : Forall (fun o => o <> Hang) outs).
  { apply Forall_forall. intros o Ho. apply in_map_iff in Ho.
    destruct Ho as (c & <- & _). apply worker_no_hang. }
  assert (Houts : nth_error outs i = Some (Raise (Sqlite3Error f))).
  { unfold outs. rewrite nth_error_map, Hi. simpl. rewrite Hworker.
    reflexivity. }
  destruct (sum_first_raise outs Hno i (Sqlite3Error f) [] Houts)
    as (j & e & Hj & Hnth & Hbefore & Hsum).
  assert (Hc : exists c, nth_error chunks j = Some c /\ result (worker c) = Raise e).
  { unfold outs in Hnth. rewrite nth_error_map in Hnth.
    destruct (nth_error chunks j) as [c|]; [|discriminate].
    injection Hnth as Hnth. exists c. split; [reflexivity|assumption]. }
  destruct Hc as (c & Hcj & Hce).
  assert (Hok : forall k c', (k < j)%nat -> nth_error chunks k = Some c' ->
                             exists rows, result (worker c') = Ok rows).
  { intros k c' Hk Hc'. destruct (Hbefore k Hk) as (v & Hv).
    unfold outs in Hv. rewrite nth_error_map, Hc' in Hv.
    injection Hv as Hv. exists v. exact Hv. }
  exists e, j, c. split; [|split; [exact Hj|split; [exact Hcj|split;
                                   [exact Hce|split; [exact Hok|]]]]].
  - unfold main.
    rewrite (match_results_fair sqlite3 read_csv args completion Hfair).
    fold chunks. change (map _ chunks) with outs. rewrite Hsum. reflexivity.
  - intros Hfirst.
    destruct (Nat.eq_dec j i) as [->|Hne].
    + rewrite Hi in Hcj. injection Hcj as <-. rewrite Hworker in Hce.
      injection Hce as <-. reflexivity.
    + destruct (Hfirst j c ltac:(lia) Hcj) as (rows & Hrows).
      rewrite Hrows in Hce. discriminate.
Qed.

Lemma fatal_error_aborts_run_witness :
  let args := Example.args 2 in
  let read_csv := Example.read_csv Example.four_queries in
  fair 2 [1; 0]%nat /\
  Example.sqlite3_flaky (input_db args) = inr Example.flaky /\
  calc_sim_for_smiles Example.sqlite3_flaky
    [("q1", "CCO"); ("q2", "CCCO")]%string (input_db args) (fp args)
    (mol_field args) (table args)
  = (map (mkCall (worker_sql morgan "mol" "mols") "CCO") [lit_0_7]
       ++ map (mkCall (worker_sql morgan "mol" "mols") "CCCO")
              [lit_0_7; lit_0_6],
     Raise (Sqlite3Error EngineUnavailable)) /\
  main Example.sqlite3_flaky read_csv Example.str_round4 args [1; 0]%nat
  = ([header], Raise (Sqlite3Error EngineUnavailable)).
Proof.
  cbv zeta.
  assert (H10 : fair 2 [1; 0]%nat) by apply perm_swap.
  split; [exact H10|]. split; [reflexivity|].
  destruct (fatal_error_aborts_run Example.sqlite3_flaky
              (Example.read_csv Example.four_queries) Example.str_round4
              (Example.args 2) [1; 0]%nat Example.flaky 0
              [("q1", "CCO")]%string [] ("q2", "CCCO")%string
              EngineUnavailable H10 eq_refl eq_refl)
    as (_ & Hworker & e & j & c & Hmain & _ & _ & _ & _ & He).
  - repeat constructor. eexists. eexists. vm_compute. reflexivity.
  - vm_compute. reflexivity.
  - split; [exact Hworker|]. rewrite Hmain, He; [reflexivity|].
    intros k c' Hk. lia.
Defined.

(* ===================================================================== *)
(** ** Further properties: the number of workers and the chunks *)
(* ===================================================================== *)

(** X1. [cpu_type] clamps the requested number of workers to the interval
    from 1 to the number of CPUs: a request in the interval is kept, a
    request below 1 gives 1, and a request above the number of CPUs gives
    that number. *)
Theorem cpu_type_clamp (cpu_count x : Z) :
  (1 <= cpu_count)%Z ->
  (1 <= cpu_type cpu_count x <= cpu_count)%Z /\
  ((1 <= x <= cpu_count)%Z -> cpu_type cpu_count x = x) /\
  ((x < 1)%Z -> cpu_type cpu_count x = 1%Z) /\
  ((cpu_count < x)%Z -> cpu_type cpu_count x = cpu_count) /\
  cpu_type cpu_count (cpu_type cpu_count x) = cpu_type cpu_count x.
Proof. unfold cpu_type. lia. Qed.

Lemma cpu_type_clamp_witness :
  (1 <= 8)%Z /\ cpu_type 8 64 = 8%Z /\ cpu_type 8 0 = 1%Z /\ cpu_type 8 3 = 3%Z.
Proof.
  split; [lia|].
  destruct (cpu_type_clamp 8 64 ltac:(lia)) as (_ & _ & _ & Hhigh & _).
  split; [apply Hhigh; lia|]. split; reflexivity.
Defined.

(** X2. For [W >= 1] the number of chunks is the number of queries divided
    by [W], rounded up. *)
Theorem chunked_count {A} (W : nat) (queries : list A) :
  (1 <= W)%nat ->
  List.length (chunked W queries) = ((List.length queries + (W - 1)) / W)%nat.
Proof.
  intros HW. remember (List.length queries) as m eqn:Hm.
  revert queries Hm. induction m as [m IH] using lt_wf_ind. intros it Hm.
  destruct it as [|x it].
  - rewrite chunked_nil. subst m. simpl List.length.
    symmetry. apply Nat.div_small. lia.
  - destruct W as [|n]; [lia|]. rewrite chunked_cons. cbn [List.length].
    rewrite (IH (List.length (skipn (S n) (x :: it)))); [| |reflexivity].
    + rewrite length_skipn. cbn [List.length] in *. subst m.
      destruct (Nat.le_gt_cases (S (List.length it)) (S n)) as [Hle|Hgt].
      * replace (S (List.length it) - S n)%nat with 0%nat by lia.
        rewrite (Nat.div_small (0 + (S n - 1)) (S n)) by lia.
        apply (Nat.div_unique _ _ 1 (List.length it)); lia.
      * replace (S (List.length it) + (S n - 1))%nat
          with ((S (List.length it) - S n + (S n - 1)) + 1 * S n)%nat by lia.
        rewrite Nat.div_add by lia. lia.
    + subst m. rewrite length_skipn. simpl. lia.
Qed.

Lemma chunked_count_witness :
  (1 <= 2)%nat /\ List.length (chunked 2 [1; 2; 3; 4; 5]%nat) = 3%nat.
Proof. split; [lia|]. apply (chunked_count 2 [1; 2; 3; 4; 5]%nat). lia. Defined.

(** X3. The edges of the chunking: no query gives no chunk; zero workers
    give no chunk (every query is left out); and when there are at least
    as many workers as queries, the queries make one chunk. *)
Theorem chunked_edges {A} (W : nat) (queries : list A) :
  chunked W (@nil A) = [] /\
  chunked 0 queries = [] /\
  (queries <> [] -> (List.length queries <= W)%nat ->
   chunked W queries = [queries]).
Proof.
  split; [apply chunked_nil|]. split.
  - rewrite chunked_eq. reflexivity.
  - intros Hne Hlen. rewrite chunked_eq.
    rewrite firstn_all2, skipn_all2 by assumption.
    rewrite chunked_nil. destruct queries; [destruct Hne|]; reflexivity.
Qed.

(* ===================================================================== *)
(** ** Further properties: the search *)
(* ===================================================================== *)

Lemma thresholds_strictly_decreasing (i j : nat) (ti tj : float) :
  (i < j)%nat ->
  nth_error thresholds i = Some ti ->
  nth_error thresholds j = Some tj ->
  ltb tj ti = true.
Proof.
  intros Hij Hi Hj.
  assert (Hj8 : (j < 8)%nat).
  { apply (proj1 (nth_error_Some thresholds j)). congruence. }
  destruct j as [|[|[|[|[|[|[|[|j]]]]]]]]; try lia;
    destruct i as [|[|[|[|[|[|[|[|i]]]]]]]]; try lia;
    vm_compute in Hi, Hj; injection Hi as <-; injection Hj as <-;
    reflexivity.
Qed.

Lemma thresholds_positive :
  Forall (fun t => ltb zero t = true /\ leb t lit_0_7 = true) thresholds.
Proof. repeat constructor. Qed.

(** X4. The loop of [get_similarity] ends, whatever the engine answers:
    nine rounds of the model are enough and more rounds change nothing, the
    search does not hang, and it sends at least one and at most eight
    statements. *)
Theorem get_similarity_terminates (con : Connection) (fp : Fp)
    (mol_field table query : string) (limit : option Z) (fuel : nat) :
  (9 <= fuel)%nat ->
  while_loop fuel con (mkSql fp mol_field table limit) query lit_0_7
  = get_similarity con fp mol_field table query limit /\
  result (get_similarity con fp mol_field table query limit) <> Hang /\
  (1 <= List.length (calls (get_similarity con fp mol_field table query limit))
   <= 8)%nat.
Proof.
  intros Hfuel. split; [|split].
  - rewrite while_loop_enough_fuel by assumption.
    symmetry. apply get_similarity_scan.
  - apply get_similarity_no_hang.
  - destruct (get_similarity_calls con fp mol_field table query limit)
      as (k & -> & Hk).
    rewrite length_map, length_firstn.
    change (List.length thresholds) with 8%nat. lia.
Qed.

Lemma get_similarity_terminates_witness :
  (9 <= 9)%nat /\
  while_loop 9 Example.con (mkSql morgan "mol" "mols" (Some 1%Z)) "CCCO" lit_0_7
  = get_similarity Example.con morgan "mol" "mols" "CCCO" (Some 1%Z).
Proof.
  split; [lia|].
  apply (get_similarity_terminates Example.con morgan "mol" "mols" "CCCO"
           (Some 1%Z) 9). lia.
Defined.

(** X5. Every statement of a search has a threshold above 0 and at most
    0.7, and the thresholds of the statements go strictly down: no
    statement is sent with the threshold 0.0, and none twice with the same
    threshold. *)
Theorem get_similarity_thresholds (con : Connection) (fp : Fp)
    (mol_field table query : string) (limit : option Z) :
  let log := calls (get_similarity con fp mol_field table query limit) in
  Forall (fun c => ltb zero (call_threshold c) = true /\
                   leb (call_threshold c) lit_0_7 = true) log /\
  forall i j ci cj,
    (i < j)%nat ->
    nth_error log i = Some ci ->
    nth_error log j = Some cj ->
    ltb (call_threshold cj) (call_threshold ci) = true.
Proof.
  cbv zeta.
  destruct (get_similarity_calls con fp mol_field table query limit)
    as (k & -> & _).
  set (call := mkCall (mkSql fp mol_field table limit) query).
  assert (Hnth : forall i c,
             nth_error (map call (firstn k thresholds)) i = Some c ->
             exists t, nth_error thresholds i = Some t /\ c = call t).
  { intros i c H. rewrite nth_error_map, nth_error_firstn in H.
    destruct (i <? k)%nat; [|discriminate].
    destruct (nth_error thresholds i) as [t|]; [|discriminate].
    injection H as <-. exists t. split; reflexivity. }
  split.
  - apply Forall_forall. intros c Hc.
    destruct (In_nth_error _ _ Hc) as [i Hi].
    destruct (Hnth i c Hi) as (t & Ht & ->).
    pose proof thresholds_positive as Hp. rewrite Forall_forall in Hp.
    apply Hp. eapply nth_error_In. eassumption.
  - intros i j ci cj Hij Hi Hj.
    destruct (Hnth i ci Hi) as (ti & Hti & ->).
    destruct (Hnth j cj Hj) as (tj & Htj & ->).
    simpl. eapply thresholds_strictly_decreasing; eassumption.
Qed.

(** X6. A list returned by [get_similarity] is never empty: it is what the
    engine fetched for the last statement sent, and every statement before
    it fetched nothing. *)
Theorem get_similarity_returns_fetched (con : Connection) (fp : Fp)
    (mol_field table query : string) (limit : option Z) (rows : list Row) :
  result (get_similarity con fp mol_field table query limit) = Ok (Some rows) ->
  rows <> [] /\
  exists earlier t,
    calls (get_similarity con fp mol_field table query limit)
    = map (mkCall (mkSql fp mol_field table limit) query) (earlier ++ [t]) /\
    In t thresholds /\
    con (mkSql fp mol_field table limit) query t = Rows rows /\
    Forall (fun t' => con (mkSql fp mol_field table limit) query t' = Rows [])
           earlier.
Proof.
  intros H.
  destruct (get_similarity_cases con fp mol_field table query limit)
    as [[_ Hg]|(pre & t & post & Heq & Hpre &
                [(r & rs & Ht & Hg)|(e & _ & Hg)])];
    rewrite Hg in H; try discriminate.
  injection H as <-. split; [discriminate|].
  exists pre, t. rewrite Hg. repeat split; try assumption.
  rewrite Heq. apply in_or_app. right. left. reflexivity.
Qed.

Lemma get_similarity_returns_fetched_witness :
  result (get_similarity Example.con morgan "mol" "mols" "CCCO" (Some 1%Z))
  = Ok (Some [("CCO", "ref1", lit_0_55)%string]) /\
  [("CCO", "ref1", lit_0_55)%string] <> [].
Proof.
  assert (H : result (get_similarity Example.con morgan "mol" "mols" "CCCO"
                        (Some 1%Z))
              = Ok (Some [("CCO", "ref1", lit_0_55)%string]))
    by (vm_compute; reflexivity).
  split; [exact H|].
  apply (get_similarity_returns_fetched Example.con morgan "mol" "mols" "CCCO"
           (Some 1%Z) _ H).
Defined.

(* ===================================================================== *)
(** ** Further properties: the worker *)
(* ===================================================================== *)

Lemma mapM_app {A B} (f : A -> M B) (l1 l2 : list A) :
  mapM f (l1 ++ l2)
  = (ys1 <- mapM f l1 ;; ys2 <- mapM f l2 ;; ret (ys1 ++ ys2)).
Proof.
  induction l1 as [|x l1 IH]; cbn [mapM app].
  - rewrite bind_ret_l. symmetry. apply bind_ret_r.
  - rewrite IH, !bind_assoc. apply bind_ext. intros y.
    rewrite !bind_assoc. apply bind_ext. intros ys1.
    rewrite bind_ret_l, bind_assoc. apply bind_ext. intros ys2.
    rewrite bind_ret_l. reflexivity.
Qed.

Lemma mapM_app_ok {A B} (f : A -> M B) (l1 l2 : list A) (ys1 : list B) :
  result (mapM f l1) = Ok ys1 ->
  mapM f (l1 ++ l2)
  = (calls (mapM f l1) ++ calls (mapM f l2),
     gathered ys1 (result (mapM f l2))).
Proof.
  intros H. rewrite mapM_app.
  destruct (mapM f l1) as [log1 o1]. simpl in H. subst o1.
  destruct (mapM f l2) as [log2 [ys2|e|]]; simpl; try reflexivity.
  rewrite app_nil_r. reflexivity.
Qed.

Lemma mapM_app_stops {A B} (f : A -> M B) (l1 l2 : list A) :
  (forall ys, result (mapM f l1) <> Ok ys) ->
  mapM f (l1 ++ l2)
  = (calls (mapM f l1), gathered [] (result (mapM f l1))).
Proof.
  intros H. rewrite mapM_app.
  destruct (mapM f l1) as [log1 [ys|e|]]; simpl; try reflexivity.
  destruct (H ys). reflexivity.
Qed.

Lemma flat_map_length_bound {A B} (g : A -> list B) (n : nat) (l : list A) :
  (forall x, (List.length (g x) <= n)%nat) ->
  (List.length (flat_map g l) <= n * List.length l)%nat.
Proof.
  intros Hg. induction l as [|x l IH]; simpl; [lia|].
  rewrite length_app. specialize (Hg x). lia.
Qed.

(** X7. The exceptions of a worker: either the one [sqlite3] raised when
    the database was opened, or the [TypeError] of [None[0]] for a query
    of the batch none of whose statements fetched a row, or the exception
    the engine raised on a statement for a query of the batch.  [res[0]]
    never raises [IndexError]. *)
Theorem calc_sim_for_smiles_raises (sqlite3 : Sqlite3) (batch : list Query)
    (db_name : string) (fp : Fp) (mol_field table : string) (e : exn) :
  result (calc_sim_for_smiles sqlite3 batch db_name fp mol_field table)
  = Raise e ->
  sqlite3 db_name = inl e \/
  exists dest q,
    sqlite3 db_name = inr dest /\ In q batch /\
    ((e = TypeError /\
      Forall (fun t => dest (worker_sql fp mol_field table) (snd q) t = Rows [])
             thresholds) \/
     (exists t,
         In t thresholds /\
         dest (worker_sql fp mol_field table) (snd q) t = Fails e)).
Proof.
  intros H. destruct (sqlite3 db_name) as [e0|dest] eqn:Hcon.
  - rewrite (calc_sim_for_smiles_no_connection sqlite3 e0) in H by assumption.
    injection H as <-. left. reflexivity.
  - right. exists dest.
    rewrite (calc_sim_for_smiles_mapM sqlite3 dest) in H by assumption.
    set (row := query_row dest fp mol_field table) in *.
    destruct (mapM_cases row batch)
      as [(ys & Hall)|(pre & x & post & ys & Heq & Hpre & Hx)].
    + rewrite (mapM_ok row _ _ Hall) in H. discriminate.
    + exists x. split; [reflexivity|]. split.
      { rewrite Heq. apply in_or_app. right. left. reflexivity. }
      destruct (mapM_stops row pre post x ys (result (row x)) Hpre eq_refl Hx)
        as (o' & Hrun & Ho').
      rewrite Heq, Hrun in H. simpl in H. subst o'.
      destruct (query_row_cases dest fp mol_field table x)
        as [_ [(r & rows & t & _ & _ & _ & Hr)|
               [(Hall & _ & Hr)|(e' & t & Hin & Ht & _ & Hr)]]];
        fold row in Hr; rewrite Hr in Ho'.
      * destruct Ho'.
      * injection Ho' as <-. left. split; [reflexivity|assumption].
      * injection Ho' as <-. right. exists t. split; assumption.
Qed.

Lemma calc_sim_for_smiles_raises_witness :
  result (calc_sim_for_smiles Example.sqlite3 Example.invalid_second
            "chembl.db" morgan "mol" "mols") = Raise TypeError /\
  (Example.sqlite3 "chembl.db"%string = inl TypeError \/
   exists dest q,
     Example.sqlite3 "chembl.db"%string = inr dest /\
     In q Example.invalid_second /\
     ((TypeError = TypeError /\
       Forall (fun t => dest (worker_sql morgan "mol" "mols") (snd q) t = Rows [])
              thresholds) \/
      (exists t,
          In t thresholds /\
          dest (worker_sql morgan "mol" "mols") (snd q) t = Fails TypeError))).
Proof.
  assert (H : result (calc_sim_for_smiles Example.sqlite3 Example.invalid_second
                        "chembl.db" morgan "mol" "mols") = Raise TypeError)
    by (vm_compute; reflexivity).
  split; [exact H|].
  exact (calc_sim_for_smiles_raises Example.sqlite3 Example.invalid_second
           "chembl.db" morgan "mol" "mols" TypeError H).
Defined.

(** X8. A worker sends at most eight statements per query of its batch,
    and none when the database cannot be opened. *)
Theorem calc_sim_for_smiles_cost (sqlite3 : Sqlite3) (batch : list Query)
    (db_name : string) (fp : Fp) (mol_field table : string) :
  let run := calc_sim_for_smiles sqlite3 batch db_name fp mol_field table in
  (List.length (calls run) <= 8 * List.length batch)%nat /\
  forall e, sqlite3 db_name = inl e -> run = ([], Raise e).
Proof.
  cbv zeta. split.
  - destruct (sqlite3 db_name) as [e|dest] eqn:Hcon.
    + rewrite (calc_sim_for_smiles_no_connection sqlite3 e) by assumption.
      simpl. lia.
    + rewrite (calc_sim_for_smiles_mapM sqlite3 dest) by assumption.
      destruct (mapM_calls_prefix (query_row dest fp mol_field table) batch)
        as (n & Hn & -> & _).
      etransitivity.
      * apply (flat_map_length_bound _ 8). intros q.
        destruct (query_row_cases dest fp mol_field table q) as [-> _].
        destruct (get_similarity_calls dest fp mol_field table (snd q)
                    (Some 1%Z)) as (k & -> & Hk).
        rewrite length_map, length_firstn.
        change (List.length thresholds) with 8%nat. lia.
      * rewrite length_firstn. lia.
  - intros e. apply calc_sim_for_smiles_no_connection.
Qed.

(** X9. A worker that returns on a batch and is given more queries sends
    the statements of the two batches one after the other, and returns the
    rows of the first batch followed by those of the second, or ends as the
    worker of the second batch ends. *)
Theorem calc_sim_for_smiles_app (sqlite3 : Sqlite3) (b1 b2 : list Query)
    (db_name : string) (fp : Fp) (mol_field table : string)
    (rows1 : list MatchRow) :
  let worker := fun b =>
    calc_sim_for_smiles sqlite3 b db_name fp mol_field table in
  result (worker b1) = Ok rows1 ->
  worker (b1 ++ b2)
  = (calls (worker b1) ++ calls (worker b2),
     gathered rows1 (result (worker b2))).
Proof.
  intros worker H. subst worker. cbv beta in *.
  destruct (sqlite3 db_name) as [e|dest] eqn:Hcon.
  - rewrite (calc_sim_for_smiles_no_connection sqlite3 e) in H by assumption.
    discriminate.
  - rewrite !(calc_sim_for_smiles_mapM sqlite3 dest) in * by assumption.
    apply mapM_app_ok. assumption.
Qed.

Lemma calc_sim_for_smiles_app_witness :
  result (calc_sim_for_smiles Example.sqlite3 Example.two_queries
            "chembl.db" morgan "mol" "mols") = Ok Example.two_rows /\
  result (calc_sim_for_smiles Example.sqlite3
            (Example.two_queries ++ Example.two_queries)
            "chembl.db" morgan "mol" "mols")
  = Ok (Example.two_rows ++ Example.two_rows).
Proof.
  assert (H : result (calc_sim_for_smiles Example.sqlite3 Example.two_queries
                        "chembl.db" morgan "mol" "mols") = Ok Example.two_rows)
    by (vm_compute; reflexivity).
  split; [exact H|].
  etransitivity;
    [exact (f_equal snd
              (calc_sim_for_smiles_app Example.sqlite3 Example.two_queries
                 Example.two_queries "chembl.db" morgan "mol" "mols"
                 Example.two_rows H))|].
  cbn [snd]. rewrite H. reflexivity.
Defined.

(** X10. A worker that raises on a batch raises the same exception, after
    the same statements, on every batch that starts with it: the queries
    after the failing one are never searched. *)
Theorem calc_sim_for_smiles_stops (sqlite3 : Sqlite3) (b1 b2 : list Query)
    (db_name : string) (fp : Fp) (mol_field table : string) (e : exn) :
  let worker := fun b =>
    calc_sim_for_smiles sqlite3 b db_name fp mol_field table in
  result (worker b1) = Raise e ->
  worker (b1 ++ b2) = worker b1.
Proof.
  intros worker H. subst worker. cbv beta in *.
  destruct (sqlite3 db_name) as [e0|dest] eqn:Hcon.
  - rewrite !(calc_sim_for_smiles_no_connection sqlite3 e0) by assumption.
    reflexivity.
  - rewrite !(calc_sim_for_smiles_mapM sqlite3 dest) in * by assumption.
    rewrite mapM_app_stops by (intros ys; rewrite H; discriminate).
    rewrite H. simpl. rewrite <- H. symmetry. apply M_eta.
Qed.

Lemma calc_sim_for_smiles_stops_witness :
  result (calc_sim_for_smiles Example.sqlite3 Example.invalid_second
            "chembl.db" morgan "mol" "mols") = Raise TypeError /\
  calc_sim_for_smiles Example.sqlite3
    (Example.invalid_second ++ Example.two_queries)
    "chembl.db" morgan "mol" "mols"
  = calc_sim_for_smiles Example.sqlite3 Example.invalid_second
      "chembl.db" morgan "mol" "mols".
Proof.
  assert (H : result (calc_sim_for_smiles Example.sqlite3 Example.invalid_second
                        "chembl.db" morgan "mol" "mols") = Raise TypeError)
    by (vm_compute; reflexivity).
  split; [exact H|].
  exact (calc_sim_for_smiles_stops Example.sqlite3 Example.invalid_second
           Example.two_queries "chembl.db" morgan "mol" "mols" TypeError H).
Defined.

(* ===================================================================== *)
(** ** Further properties: the run *)
(* ===================================================================== *)

Lemma gathered_app {B} (start v : list B) (o : outcome (list B)) :
  gathered (start ++ v) o = gathered start (gathered v o).
Proof. destruct o; simpl; [rewrite app_assoc|..]; reflexivity. Qed.

Lemma gathered_nil {B} (o : outcome (list B)) : gathered [] o = o.
Proof. destruct o; reflexivity. Qed.

(** The results of the workers of consecutive batches, put together by
    [sum], are the result of one worker on the batches put together. *)
Lemma sum_mapM_concat {A B} (f : A -> M B) (cs : list (list A)) :
  forall start,
    sum (map Some (map (fun c => result (mapM f c)) cs)) start
    = gathered start (result (mapM f (List.concat cs))).
Proof.
  induction cs as [|c cs IH]; intros start; cbn [map List.concat sum].
  - simpl. rewrite app_nil_r. reflexivity.
  - destruct (result (mapM f c)) as [v|e|] eqn:Hc.
    + rewrite IH, (mapM_app_ok f c (List.concat cs) v Hc). cbn [result snd].
      apply gathered_app.
    + rewrite mapM_app_stops by (intros ys; rewrite Hc; discriminate).
      cbn [result snd]. rewrite Hc. reflexivity.
    + rewrite mapM_app_stops by (intros ys; rewrite Hc; discriminate).
      cbn [result snd]. rewrite Hc. reflexivity.
Qed.

Lemma sum_all_raise {B} (e : exn) (n : nat) (start : list B) :
  sum (map Some (repeat (Raise e) (S n))) start = Raise e.
Proof. reflexivity. Qed.

(** The workers of the chunks against one worker for all the queries. *)
Lemma sum_workers_concat (sqlite3 : Sqlite3) (db_name : string) (fp : Fp)
    (mol_field table : string) (cs : list (list Query)) :
  cs <> [] ->
  sum (map Some
         (map (fun c =>
                 result (calc_sim_for_smiles sqlite3 c db_name fp mol_field
                           table)) cs)) []
  = result (calc_sim_for_smiles sqlite3 (List.concat cs) db_name fp mol_field
              table).
Proof.
  intros Hne. destruct (sqlite3 db_name) as [e|dest] eqn:Hcon.
  - rewrite (calc_sim_for_smiles_no_connection sqlite3 e) by assumption.
    destruct cs as [|c cs]; [destruct Hne; reflexivity|]. cbn [map sum].
    rewrite (calc_sim_for_smiles_no_connection sqlite3 e) by assumption.
    reflexivity.
  - rewrite (calc_sim_for_smiles_mapM sqlite3 dest) by assumption.
    rewrite <- (gathered_nil (result (mapM _ (List.concat cs)))).
    rewrite <- sum_mapM_concat. f_equal. f_equal.
    apply map_ext. intros c.
    rewrite (calc_sim_for_smiles_mapM sqlite3 dest) by assumption.
    reflexivity.
Qed.

Lemma chunked_not_nil {A} (n : nat) (l : list A) :
  (1 <= n)%nat -> l <> [] -> chunked n l <> [].
Proof.
  intros Hn Hl Hc. apply Hl.
  rewrite <- (chunked_concat n l Hn), Hc. reflexivity.
Qed.

Lemma match_results_sequential (sqlite3 : Sqlite3)
    (read_csv : string -> DataFrame) (args : Args) (completion : list nat) :
  (1 <= ncpu args)%nat ->
  fair (List.length (chunked (ncpu args) (queries read_csv args))) completion ->
  queries read_csv args <> [] ->
  match_results sqlite3 read_csv args completion
  = result (calc_sim_for_smiles sqlite3 (queries read_csv args)
              (input_db args) (fp args) (mol_field args) (table args)).
Proof.
  intros Hn Hfair Hne.
  rewrite (match_results_fair sqlite3 read_csv args completion Hfair).
  rewrite sum_workers_concat by (apply chunked_not_nil; assumption).
  rewrite chunked_concat by assumption. reflexivity.
Qed.

Lemma complete_nil {A} (completion : list nat) :
  complete (@nil (outcome A)) completion [] = [].
Proof.
  induction completion as [|i completion IH]; simpl; [reflexivity|].
  destruct i; exact IH.
Qed.

Lemma match_results_no_query (sqlite3 : Sqlite3)
    (read_csv : string -> DataFrame) (args : Args) (completion : list nat) :
  queries read_csv args = [] ->
  match_results sqlite3 read_csv args completion = Ok [].
Proof.
  intros H. unfold match_results. rewrite H, chunked_nil.
  unfold executor_map. simpl.
  pose proof (@complete_nil (list MatchRow) completion) as E.
  unfold Future in *. rewrite E. reflexivity.
Qed.

(** X11. A run in chunks is a run in one batch: with at least one worker
    and a pool that completes every chunk, the rows or the exception of
    the run are those of a single worker given all the queries (when there
    is at least one query). *)
Theorem parallel_run_is_sequential (sqlite3 : Sqlite3)
    (read_csv : string -> DataFrame) (args : Args) (completion : list nat) :
  (1 <= ncpu args)%nat ->
  fair (List.length (chunked (ncpu args) (queries read_csv args))) completion ->
  queries read_csv args <> [] ->
  match_results sqlite3 read_csv args completion
  = result (calc_sim_for_smiles sqlite3 (queries read_csv args)
              (input_db args) (fp args) (mol_field args) (table args)).
Proof. apply match_results_sequential. Qed.

Lemma parallel_run_is_sequential_witness :
  (1 <= ncpu (Example.args 2))%nat /\
  fair 2 [1; 0]%nat /\
  queries (Example.read_csv Example.four_queries) (Example.args 2) <> [] /\
  match_results Example.sqlite3 (Example.read_csv Example.four_queries)
    (Example.args 2) [1; 0]%nat
  = result (calc_sim_for_smiles Example.sqlite3
              (queries (Example.read_csv Example.four_queries) (Example.args 2))
              "chembl.db" morgan "mol" "mols").
Proof.
  assert (H10 : fair 2 [1; 0]%nat) by apply perm_swap.
  split; [simpl; lia|]. split; [exact H10|]. split; [discriminate|].
  apply (parallel_run_is_sequential Example.sqlite3
           (Example.read_csv Example.four_queries) (Example.args 2)
           [1; 0]%nat); [simpl; lia | exact H10 | discriminate].
Defined.

(** X12. The number of workers does not change what a run writes or how it
    ends: two runs that differ only in [ncpu] (at least 1 in both) and in
    the order in which their chunks complete have the same output. *)
Theorem worker_count_irrelevant (sqlite3 : Sqlite3)
    (read_csv : string -> DataFrame) (str_round4 : float -> string)
    (args : Args) (n1 n2 : nat) (c1 c2 : list nat) :
  (1 <= n1)%nat ->
  (1 <= n2)%nat ->
  fair (List.length (chunked n1 (queries read_csv args))) c1 ->
  fair (List.length (chunked n2 (queries read_csv args))) c2 ->
  main sqlite3 read_csv str_round4 (set_ncpu n1 args) c1
  = main sqlite3 read_csv str_round4 (set_ncpu n2 args) c2.
Proof.
  intros H1 H2 Hf1 Hf2. unfold main.
  destruct (queries read_csv args) as [|q qs] eqn:Hq.
  - rewrite !match_results_no_query by exact Hq. reflexivity.
  - rewrite (match_results_sequential sqlite3 read_csv (set_ncpu n1 args) c1);
      [|exact H1
       |change (queries read_csv (set_ncpu n1 args)) with (queries read_csv args);
        rewrite Hq; exact Hf1
       |change (queries read_csv (set_ncpu n1 args)) with (queries read_csv args);
        rewrite Hq; discriminate].
    rewrite (match_results_sequential sqlite3 read_csv (set_ncpu n2 args) c2);
      [|exact H2
       |change (queries read_csv (set_ncpu n2 args)) with (queries read_csv args);
        rewrite Hq; exact Hf2
       |change (queries read_csv (set_ncpu n2 args)) with (queries read_csv args);
        rewrite Hq; discriminate].
    reflexivity.
Qed.

Lemma worker_count_irrelevant_witness :
  (1 <= 1)%nat /\ (1 <= 3)%nat /\
  fair 4 [1; 0; 2; 3]%nat /\ fair 2 [1; 0]%nat /\
  main Example.sqlite3 (Example.read_csv Example.four_queries)
       Example.str_round4 (set_ncpu 1 (Example.args 2)) [1; 0; 2; 3]%nat
  = main Example.sqlite3 (Example.read_csv Example.four_queries)
         Example.str_round4 (set_ncpu 3 (Example.args 2)) [1; 0]%nat.
Proof.
  assert (Ha : fair 4 [1; 0; 2; 3]%nat).
  { apply perm_swap. }
  assert (Hb : fair 2 [1; 0]%nat) by apply perm_swap.
  split; [lia|]. split; [lia|]. split; [exact Ha|]. split; [exact Hb|].
  apply (worker_count_irrelevant Example.sqlite3
           (Example.read_csv Example.four_queries) Example.str_round4
           (Example.args 2) 1 3 [1; 0; 2; 3]%nat [1; 0]%nat);
    [lia | lia | exact Ha | exact Hb].
Defined.

(** X13. A run without queries, with at least one worker, writes the
    header line and returns; no chunk is made, so no worker opens the
    database, and the run returns even when the database cannot be
    opened. *)
Theorem main_no_query (sqlite3 : Sqlite3) (read_csv : string -> DataFrame)
    (str_round4 : float -> string) (args : Args) (completion : list nat) :
  (1 <= ncpu args)%nat ->
  queries read_csv args = [] ->
  chunked (ncpu args) (queries read_csv args) = [] /\
  main sqlite3 read_csv str_round4 args completion = ([header], Ok tt).
Proof.
  intros _ H. split.
  - rewrite H. apply chunked_nil.
  - unfold main. rewrite match_results_no_query by exact H. reflexivity.
Qed.

Lemma main_no_query_witness :
  (1 <= ncpu (Example.args 4))%nat /\
  queries (Example.read_csv (mkDataFrame [] [])) (Example.args 4) = [] /\
  main (Example.no_extension) (Example.read_csv (mkDataFrame [] []))
       Example.str_round4 (Example.args 4) [2; 0]%nat
  = ([header], Ok tt).
Proof.
  split; [simpl; lia|]. split; [reflexivity|].
  apply (main_no_query (Example.no_extension)
           (Example.read_csv (mkDataFrame [] [])) Example.str_round4
           (Example.args 4) [2; 0]%nat); [simpl; lia|reflexivity].
Defined.

(** X14. When the database cannot be opened and there is at least one
    query, the run ends with the exception of [sqlite3] and the output file
    has the header line only. *)
Theorem main_no_connection (sqlite3 : Sqlite3)
    (read_csv : string -> DataFrame) (str_round4 : float -> string)
    (args : Args) (completion : list nat) (e : exn) :
  (1 <= ncpu args)%nat ->
  fair (List.length (chunked (ncpu args) (queries read_csv args))) completion ->
  queries read_csv args <> [] ->
  sqlite3 (input_db args) = inl e ->
  main sqlite3 read_csv str_round4 args completion = ([header], Raise e).
Proof.
  intros Hn Hfair Hne Hcon. unfold main.
  rewrite match_results_sequential by assumption.
  rewrite (calc_sim_for_smiles_no_connection sqlite3 e) by assumption.
  reflexivity.
Qed.

Lemma main_no_connection_witness :
  (1 <= ncpu (Example.args 2))%nat /\
  fair 2 [1; 0]%nat /\
  queries (Example.read_csv Example.four_queries) (Example.args 2) <> [] /\
  Example.no_extension (input_db (Example.args 2))
  = inl (Sqlite3Error EngineUnavailable) /\
  main (Example.no_extension) (Example.read_csv Example.four_queries)
       Example.str_round4 (Example.args 2) [1; 0]%nat
  = ([header], Raise (Sqlite3Error EngineUnavailable)).
Proof.
  assert (H10 : fair 2 [1; 0]%nat) by apply perm_swap.
  split; [simpl; lia|]. split; [exact H10|]. split; [discriminate|].
  split; [reflexivity|].
  apply (main_no_connection (Example.no_extension)
           (Example.read_csv Example.four_queries) Example.str_round4
           (Example.args 2) [1; 0]%nat (Sqlite3Error EngineUnavailable));
    [simpl; lia | exact H10 | discriminate | reflexivity].
Defined.

(** X15. The exception of a run is that of the first query, in the order
    of the input, whose search or whose [res[0]] raises, whatever the
    number of workers and the order in which the chunks complete; the
    output file then has the header line only. *)
Theorem main_first_failing_query (sqlite3 : Sqlite3)
    (read_csv : string -> DataFrame) (str_round4 : float -> string)
    (args : Args) (completion : list nat) (dest : Connection)
    (pre post : list Query) (q : Query) (e : exn) :
  let row := query_row dest (fp args) (mol_field args) (table args) in
  (1 <= ncpu args)%nat ->
  fair (List.length (chunked (ncpu args) (queries read_csv args))) completion ->
  sqlite3 (input_db args) = inr dest ->
  queries read_csv args = pre ++ q :: post ->
  Forall (fun q' => exists r, result (row q') = Ok r) pre ->
  result (row q) = Raise e ->
  main sqlite3 read_csv str_round4 args completion = ([header], Raise e).
Proof.
  intros row Hn Hfair Hcon Hq Hpre Hfail. unfold main.
  rewrite match_results_sequential;
    [|assumption|assumption|rewrite Hq; destruct pre; discriminate].
  rewrite (calc_sim_for_smiles_mapM sqlite3 dest) by assumption.
  fold row. rewrite Hq.
  assert (Hys : exists ys, Forall2 (fun q' r => result (row q') = Ok r) pre ys).
  { clear Hq. induction Hpre as [|q' pre (r & Hr) _ (ys & IH)].
    - exists []. constructor.
    - exists (r :: ys). constructor; assumption. }
  destruct Hys as (ys & Hys).
  destruct (mapM_stops row pre post q ys (Raise e) Hys Hfail)
    as (o' & -> & ->); [discriminate|].
  reflexivity.
Qed.

Lemma main_first_failing_query_witness :
  (1 <= ncpu (Example.args 2))%nat /\
  fair 2 [1; 0]%nat /\
  Example.sqlite3 (input_db (Example.args 2)) = inr Example.con /\
  queries (Example.read_csv Example.with_invalid) (Example.args 2)
  = [("q1", "CCO")%string] ++ ("q2", "XYZ-invalid")%string
      :: [("q3", "CCCO")%string] /\
  main Example.sqlite3 (Example.read_csv Example.with_invalid)
       Example.str_round4 (Example.args 2) [1; 0]%nat
  = ([header], Raise TypeError).
Proof.
  assert (H10 : fair 2 [1; 0]%nat) by apply perm_swap.
  split; [simpl; lia|]. split; [exact H10|]. split; [reflexivity|].
  split; [reflexivity|].
  apply (main_first_failing_query Example.sqlite3
           (Example.read_csv Example.with_invalid) Example.str_round4
           (Example.args 2) [1; 0]%nat Example.con
           [("q1", "CCO")%string] [("q3", "CCCO")%string]
           ("q2", "XYZ-invalid")%string TypeError);
    [simpl; lia | exact H10 | reflexivity | reflexivity | | ].
  - repeat constructor. eexists. vm_compute. reflexivity.
  - vm_compute. reflexivity.
Defined.

(** X16. When the database opens and every query has a row, the run
    returns, for any number of workers: the file has the header line and
    then one line per query, in the order of the queries. *)
Theorem main_all_found (sqlite3 : Sqlite3) (read_csv : string -> DataFrame)
    (str_round4 : float -> string) (args : Args) (completion : list nat)
    (dest : Connection) (rows : list MatchRow) :
  let row := query_row dest (fp args) (mol_field args) (table args) in
  (1 <= ncpu args)%nat ->
  fair (List.length (chunked (ncpu args) (queries read_csv args))) completion ->
  sqlite3 (input_db args) = inr dest ->
  Forall2 (fun q r => result (row q) = Ok r) (queries read_csv args) rows ->
  main sqlite3 read_csv str_round4 args completion
  = (header :: map (write_row str_round4) rows, Ok tt) /\
  map origin rows = queries read_csv args.
Proof.
  intros row Hn Hfair Hcon Hrows. split.
  - unfold main.
    destruct (queries read_csv args) as [|q qs] eqn:Hq.
    + rewrite match_results_no_query by exact Hq.
      inversion Hrows. reflexivity.
    + rewrite match_results_sequential;
        [|assumption|rewrite Hq; assumption|rewrite Hq; discriminate].
      rewrite (calc_sim_for_smiles_mapM sqlite3 dest) by assumption.
      rewrite Hq. fold row. rewrite (mapM_ok row _ _ Hrows). reflexivity.
  - apply Forall2_map_eq. eapply Forall2_impl; [|exact Hrows].
    intros q r Hr. cbv beta in Hr.
    destruct (query_row_ok dest (fp args) (mol_field args) (table args) q r Hr)
      as (rw & rest & t & _ & _ & _ & _ & ->).
    apply origin_tuple_add.
Qed.

Lemma main_all_found_witness :
  (1 <= ncpu (Example.args 3))%nat /\
  fair 2 [1; 0]%nat /\
  Example.sqlite3 (input_db (Example.args 3)) = inr Example.con /\
  main Example.sqlite3 (Example.read_csv Example.four_queries)
       Example.str_round4 (Example.args 3) [1; 0]%nat
  = (header :: map (write_row Example.str_round4)
                   (Example.two_rows
                      ++ [("CCO", "ref1", lit_0_55, "q3", "CCCO")%string;
                          ("CCO", "ref1", lit_1_0, "q4", "CCO")%string]),
     Ok tt).
Proof.
  assert (H10 : fair 2 [1; 0]%nat) by apply perm_swap.
  split; [simpl; lia|]. split; [exact H10|]. split; [reflexivity|].
  apply (main_all_found Example.sqlite3 (Example.read_csv Example.four_queries)
           Example.str_round4 (Example.args 3) [1; 0]%nat Example.con);
    [simpl; lia | exact H10 | reflexivity | ].
  repeat constructor.
Defined.

(* ===================================================================== *)
(** ** Further properties: the statement on a table *)
(* ===================================================================== *)

Section Select.

Import Chemicalite.

Lemma In_insert_desc (x r : Row) (l : list Row) :
  In r (insert_desc x l) <-> r = x \/ In r l.
Proof.
  induction l as [|y l IH]; simpl.
  - split; intros [H|H]; auto.
  - destruct (geb (similarity x) (similarity y)); simpl.
    + split; intros [H|H]; auto.
    + rewrite IH. split; intros [H|[H|H]]; auto.
Qed.

Lemma In_order_by_t_desc (r : Row) (l : list Row) :
  In r (order_by_t_desc l) <-> In r l.
Proof.
  induction l as [|x l IH]; simpl; [reflexivity|].
  rewrite In_insert_desc, IH. split; intros [H|H]; auto.
Qed.

Lemma In_firstn {A} (n : nat) (x : A) (l : list A) :
  In x (firstn n l) -> In x l.
Proof.
  revert l. induction n as [|n IH]; intros [|y l]; simpl; try tauto.
  intros [H|H]; auto.
Qed.

Lemma In_apply_limit (limit : option Z) (r : Row) (l : list Row) :
  In r (apply_limit limit l) -> In r l.
Proof.
  unfold apply_limit. destruct limit as [n|]; [|auto].
  destruct (n <? 0)%Z; [auto|apply In_firstn].
Qed.

Lemma In_candidates (db : Database) (fp : Fp) (query : string)
    (smi id : string) (s : float) :
  In (smi, id, s) (candidates db fp query) <->
  In (smi, id) (db_rows db) /\ db_tanimoto db fp query smi = Some s.
Proof.
  unfold candidates. rewrite in_flat_map. split.
  - intros ([smi' id'] & Hin & H).
    destruct (db_tanimoto db fp query smi') as [s'|] eqn:Hs; [|destruct H].
    destruct H as [H|H]; [|destruct H]. injection H as -> -> ->. auto.
  - intros (Hin & Hs). exists (smi, id). split; [assumption|].
    rewrite Hs. left. reflexivity.
Qed.

(** The rows a statement fetches are rows of the table, with their
    similarity to the query, which is at least the threshold. *)
Lemma select_rows_sound (db : Database) (sql : Sql) (query : string)
    (t : float) (rows : list Row) (smi id : string) (s : float) :
  select db sql query t = Rows rows ->
  In (smi, id, s) rows ->
  In (smi, id) (db_rows db) /\
  db_tanimoto db (sql_fp sql) query smi = Some s /\
  geb s t = true.
Proof.
  unfold select. intros H Hin.
  destruct (_ && _); [|discriminate]. injection H as <-.
  apply In_apply_limit, In_order_by_t_desc, filter_In in Hin.
  destruct Hin as [Hc Hge]. apply In_candidates in Hc.
  destruct Hc as [Hrow Hs]. auto.
Qed.

Lemma thresholds_above_zero :
  Forall (fun t => geb zero t = false) thresholds.
Proof. repeat constructor. Qed.

(** X18. A table all of whose molecules have similarity 0.0 to the query:
    the statement at the threshold 0.0 fetches a molecule (when the table
    has one and the statement is accepted), but the loop never sends this
    statement, its last threshold being 2^-55; so the search never returns
    a row, whatever the limit. *)
Theorem zero_similarity_never_matched (db : Database) (fp : Fp)
    (mol_field table query : string) (limit : option Z) :
  (forall smi id s,
      In (smi, id) (db_rows db) ->
      db_tanimoto db fp query smi = Some s -> s = zero) ->
  (forall rows,
      result (get_similarity (select db) fp mol_field table query limit)
      <> Ok (Some rows)) /\
  (forall smi id,
      In (smi, id) (db_rows db) ->
      db_tanimoto db fp query smi = Some zero ->
      (forall e, select db (worker_sql fp mol_field table) query zero
                 <> Fails e) ->
      exists r,
        select db (worker_sql fp mol_field table) query zero = Rows [r]).
Proof.
  intros Hzero. split.
  - intros rows H.
    destruct (get_similarity_cases (select db) fp mol_field table query limit)
      as [[_ Hg]|(pre & t & post & Heq & _ &
                  [(r & rs & Ht & Hg)|(e & _ & Hg)])];
      rewrite Hg in H; try discriminate.
    destruct r as [[smi id] s].
    destruct (select_rows_sound db _ query t _ smi id s Ht (or_introl eq_refl))
      as (Hin & Hs & Hge).
    simpl in Hs. rewrite (Hzero smi id s Hin Hs) in Hge.
    pose proof thresholds_above_zero as Hz. rewrite Forall_forall in Hz.
    rewrite Hz in Hge; [discriminate|].
    rewrite Heq. apply in_or_app. right. left. reflexivity.
  - intros smi id Hin Hs Hok. unfold select in *. simpl in *.
    destruct (_ && _); [|destruct (Hok _ eq_refl)].
    set (l := order_by_t_desc _).
    assert (Hl : In (smi, id, zero) l).
    { apply In_order_by_t_desc, filter_In. split; [|reflexivity].
      apply In_candidates. auto. }
    destruct l as [|r l]; [destruct Hl|]. exists r. reflexivity.
Qed.

Lemma zero_similarity_never_matched_witness :
  (forall smi id s,
      In (smi, id) (db_rows Example.disjoint) ->
      db_tanimoto Example.disjoint morgan "CCO"%string smi = Some s -> s = zero) /\
  result (get_similarity (select Example.disjoint) morgan "mol" "mols" "CCO"
            (Some 1%Z)) = Ok None.
Proof.
  assert (H : forall smi id s,
             In (smi, id) (db_rows Example.disjoint) ->
             db_tanimoto Example.disjoint morgan "CCO"%string smi = Some s ->
             s = zero).
  { intros smi id s _ Hs. simpl in Hs. injection Hs as <-. reflexivity. }
  split; [exact H|].
  destruct (zero_similarity_never_matched Example.disjoint morgan "mol" "mols"
              "CCO" (Some 1%Z) H) as [Hnever _].
  destruct (result (get_similarity (select Example.disjoint) morgan "mol" "mols"
                      "CCO" (Some 1%Z))) as [[rows|]|e|] eqn:Hr.
  - destruct (Hnever rows eq_refl).
  - reflexivity.
  - vm_compute in Hr. discriminate.
  - vm_compute in Hr. discriminate.
Defined.

(** *** The row fetched with LIMIT 1 is a best match *)

Lemma leb_finite (m1 m2 : positive) (e1 e2 : Z) :
  leb (S754_finite false m1 e1) (S754_finite false m2 e2) = true <->
  (e1 < e2)%Z \/ (e1 = e2 /\ (m1 <= m2)%positive).
Proof.
  unfold leb, SFleb, SFcompare.
  destruct (Z.compare_spec e1 e2) as [He|He|He].
  - change (Pos.compare_cont Eq m1 m2) with (Pos.compare m1 m2).
    destruct (Pos.compare_spec m1 m2) as [Hm|Hm|Hm]; split; intros H;
      try discriminate; try reflexivity; try lia.
  - split; [intros _; lia|reflexivity].
  - split; [discriminate|lia].
Qed.

Lemma leb_nonneg_refl (x : float) : nonneg x = true -> leb x x = true.
Proof.
  destruct x as [s|s| |[|] m e]; try discriminate; intros _;
    [reflexivity|]. apply leb_finite. right. split; [reflexivity|lia].
Qed.

Lemma leb_nonneg_total (x y : float) :
  nonneg x = true -> nonneg y = true -> leb x y = true \/ leb y x = true.
Proof.
  destruct x as [sx|sx| |[|] mx ex]; try discriminate;
    destruct y as [sy|sy| |[|] my ey]; try discriminate; intros _ _;
    try (left; reflexivity); try (right; reflexivity).
  rewrite !leb_finite. lia.
Qed.

Lemma leb_nonneg_trans (x y z : float) :
  nonneg x = true -> nonneg y = true -> nonneg z = true ->
  leb x y = true -> leb y z = true -> leb x z = true.
Proof.
  destruct x as [sx|sx| |[|] mx ex]; try discriminate;
    destruct y as [sy|sy| |[|] my ey]; try discriminate;
    destruct z as [sz|sz| |[|] mz ez]; try discriminate; intros _ _ _;
    try reflexivity; try discriminate.
  rewrite !leb_finite. lia.
Qed.

Lemma geb_false_leb (x y : float) :
  nonneg x = true -> nonneg y = true -> geb x y = false -> leb x y = true.
Proof.
  intros Hx Hy H. destruct (leb_nonneg_total x y Hx Hy) as [|H']; [assumption|].
  unfold geb in H. congruence.
Qed.

Lemma thresholds_nonneg_finite : Forall (fun t => nonneg t = true) thresholds.
Proof. repeat constructor. Qed.

(** The first row of the sorted rows is above every row, when the
    similarities are zero or positive. *)
Lemma order_by_t_desc_head (l : list Row) :
  Forall (fun r => nonneg (similarity r) = true) l ->
  match order_by_t_desc l with
  | [] => l = []
  | h :: _ => forall x, In x l -> leb (similarity x) (similarity h) = true
  end.
Proof.
  induction 1 as [|a l Ha Hl IH]; [reflexivity|].
  cbn [order_by_t_desc fold_right].
  change (fold_right insert_desc [] l) with (order_by_t_desc l).
  destruct (order_by_t_desc l) as [|h rest] eqn:Hs.
  - subst l. simpl. intros x [<-|[]]. apply leb_nonneg_refl. assumption.
  - assert (Hh : nonneg (similarity h) = true).
    { rewrite Forall_forall in Hl. apply Hl.
      apply In_order_by_t_desc. rewrite Hs. left. reflexivity. }
    cbn [insert_desc].
    destruct (geb (similarity a) (similarity h)) eqn:Hge.
    + intros x [<-|Hx]; [apply leb_nonneg_refl; assumption|].
      apply (leb_nonneg_trans _ (similarity h)); auto.
      rewrite Forall_forall in Hl. auto.
    + intros x [<-|Hx]; [|auto].
      apply geb_false_leb; assumption.
Qed.

(** What a statement with LIMIT 1 fetches on a table whose similarities
    are zero or positive: nothing when no molecule reaches the threshold,
    and otherwise one molecule that reaches it and is above every molecule
    that reaches it. *)
Lemma select_one_best (db : Database) (sql : Sql) (query : string)
    (t : float) (rows : list Row) :
  sql_limit sql = Some 1%Z ->
  (forall smi id s,
      In (smi, id, s) (candidates db (sql_fp sql) query) -> nonneg s = true) ->
  select db sql query t = Rows rows ->
  (rows = [] /\
   forall x, In x (candidates db (sql_fp sql) query) ->
             geb (similarity x) t = false) \/
  (exists r,
      rows = [r] /\
      In r (candidates db (sql_fp sql) query) /\
      geb (similarity r) t = true /\
      forall x, In x (candidates db (sql_fp sql) query) ->
                geb (similarity x) t = true ->
                leb (similarity x) (similarity r) = true).
Proof.
  intros Hl Hnn H. unfold select in H.
  destruct (_ && _); [|discriminate]. injection H as <-.
  rewrite Hl. unfold apply_limit. change (1 <? 0)%Z with false. cbv iota.
  change (Z.to_nat 1) with 1%nat.
  set (l := filter (fun r => geb (similarity r) t)
                   (candidates db (sql_fp sql) query)).
  assert (Hlnn : Forall (fun r => nonneg (similarity r) = true) l).
  { apply Forall_forall. intros [[smi id] s] Hin.
    apply filter_In in Hin. destruct Hin as [Hin _].
    apply (Hnn smi id s Hin). }
  pose proof (order_by_t_desc_head l Hlnn) as Hhead.
  destruct (order_by_t_desc l) as [|h rest] eqn:Hs.
  - left. split; [reflexivity|]. intros x Hx.
    destruct (geb (similarity x) t) eqn:Hge; [|reflexivity].
    assert (Hxl : In x l) by (apply filter_In; auto).
    rewrite Hhead in Hxl. destruct Hxl.
  - right. exists h. split; [reflexivity|].
    assert (Hhl : In h l).
    { apply In_order_by_t_desc. rewrite Hs. left. reflexivity. }
    apply filter_In in Hhl. destruct Hhl as [Hhc Hht].
    split; [assumption|]. split; [assumption|].
    intros x Hx Hge. apply Hhead. apply filter_In. auto.
Qed.

(** X21. On a table whose similarities are zero or positive, the row
    [get_similarity] returns with [limit=1] is a best match of the whole
    table: it is a molecule of the table with its similarity to the query,
    and no molecule of the table has a higher similarity.  Stopping at the
    first band that is not empty loses nothing. *)
Theorem get_similarity_best_match (db : Database) (fp : Fp)
    (mol_field table query : string) (rows : list Row) :
  (forall smi id s,
      In (smi, id) (db_rows db) ->
      db_tanimoto db fp query smi = Some s -> nonneg s = true) ->
  result (get_similarity (select db) fp mol_field table query (Some 1%Z))
  = Ok (Some rows) ->
  exists smi id s,
    rows = [(smi, id, s)] /\
    In (smi, id) (db_rows db) /\
    db_tanimoto db fp query smi = Some s /\
    forall smi' id' s',
      In (smi', id') (db_rows db) ->
      db_tanimoto db fp query smi' = Some s' ->
      leb s' s = true.
Proof.
  intros Hnn H.
  assert (Hcnn : forall smi id s,
             In (smi, id, s) (candidates db fp query) -> nonneg s = true).
  { intros smi id s Hin. apply In_candidates in Hin.
    destruct Hin as [Hin Hs]. apply (Hnn smi id s Hin Hs). }
  destruct (get_similarity_cases (select db) fp mol_field table query
              (Some 1%Z))
    as [[_ Hg]|(pre & t & post & Heq & _ &
                [(r & rs & Ht & Hg)|(e & _ & Hg)])];
    rewrite Hg in H; try discriminate.
  injection H as <-.
  assert (Hin : In t thresholds).
  { rewrite Heq. apply in_or_app. right. left. reflexivity. }
  assert (Htn : nonneg t = true).
  { pose proof thresholds_nonneg_finite as Hf. rewrite Forall_forall in Hf.
    auto. }
  destruct (select_one_best db (mkSql fp mol_field table (Some 1%Z)) query t
              _ eq_refl Hcnn Ht)
    as [[Hnil _]|(h & Heqr & Hhc & Hht & Hmax)]; [discriminate|].
  injection Heqr as -> ->. destruct h as [[smi id] s].
  exists smi, id, s. split; [reflexivity|].
  apply In_candidates in Hhc. destruct Hhc as [Hrow Hs].
  split; [assumption|]. split; [assumption|].
  intros smi' id' s' Hrow' Hs'.
  assert (Hc' : In (smi', id', s') (candidates db fp query))
    by (apply In_candidates; auto).
  destruct (geb s' t) eqn:Hge.
  - apply (Hmax (smi', id', s') Hc' Hge).
  - apply (leb_nonneg_trans s' t s); auto.
    + apply (Hnn smi' id' s' Hrow' Hs').
    + apply (Hnn smi id s Hrow Hs).
    + apply geb_false_leb; auto. apply (Hnn smi' id' s' Hrow' Hs').
Qed.

Lemma get_similarity_best_match_witness :
  (forall smi id s,
      In (smi, id) (db_rows Example.chembl) ->
      db_tanimoto Example.chembl morgan "CCCO"%string smi = Some s ->
      nonneg s = true) /\
  result (get_similarity (select Example.chembl) morgan "mol" "mols" "CCCO"
            (Some 1%Z))
  = Ok (Some [("CCO", "ref1", lit_0_55)%string]) /\
  leb (decimal 25 100) lit_0_55 = true.
Proof.
  assert (Hnn : forall smi id s,
      In (smi, id) (db_rows Example.chembl) ->
      db_tanimoto Example.chembl morgan "CCCO"%string smi = Some s ->
      nonneg s = true).
  { intros smi id s Hin Hs. simpl in Hin.
    destruct Hin as [H|[H|[H|[]]]]; injection H as <- <-;
      vm_compute in Hs; injection Hs as <-; reflexivity. }
  assert (H : result (get_similarity (select Example.chembl) morgan "mol"
                        "mols" "CCCO" (Some 1%Z))
              = Ok (Some [("CCO", "ref1", lit_0_55)%string]))
    by (vm_compute; reflexivity).
  split; [exact Hnn|]. split; [exact H|].
  destruct (get_similarity_best_match Example.chembl morgan "mol" "mols"
              "CCCO" _ Hnn H) as (smi & id & s & Heq & _ & _ & Hmax).
  injection Heq as <- <- <-.
  apply (Hmax "CCN"%string "ref2"%string (decimal 25 100)).
  - left. reflexivity.
  - vm_compute. reflexivity.
Defined.

(** X22. On a table whose similarities are zero or positive and whose
    best match for the query has similarity 0.55, a search with [limit=1]
    sends exactly the statements at 0.7, 0.6 and 0.5 (the first two fetch
    nothing) and returns one row, a molecule of the table whose similarity
    equals 0.55. *)
Theorem get_similarity_best_0_55 (db : Database) (fp : Fp)
    (mol_field table query : string) :
  let sql := worker_sql fp mol_field table in
  answers (select db) sql query ->
  (forall smi id s,
      In (smi, id) (db_rows db) ->
      db_tanimoto db fp query smi = Some s ->
      nonneg s = true /\ leb s lit_0_55 = true) ->
  (exists smi id,
      In (smi, id) (db_rows db) /\
      db_tanimoto db fp query smi = Some lit_0_55) ->
  select db sql query lit_0_7 = Rows [] /\
  select db sql query lit_0_6 = Rows [] /\
  exists smi id s,
    get_similarity (select db) fp mol_field table query (Some 1%Z)
    = (map (mkCall sql query) [lit_0_7; lit_0_6; lit_0_5],
       Ok (Some [(smi, id, s)])) /\
    In (smi, id) (db_rows db) /\
    db_tanimoto db fp query smi = Some s /\
    leb s lit_0_55 = true /\ leb lit_0_55 s = true.
Proof.
  intros sql Hans Hbest (smi0 & id0 & Hrow0 & Hs0).
  assert (Hcnn : forall smi id s,
             In (smi, id, s) (candidates db (sql_fp sql) query) ->
             nonneg s = true).
  { intros smi id s Hin. apply In_candidates in Hin.
    destruct Hin as [Hin Hs]. apply (Hbest smi id s Hin Hs). }
  assert (Hc0 : In (smi0, id0, lit_0_55) (candidates db (sql_fp sql) query))
    by (apply In_candidates; auto).
  assert (Hempty : forall t,
             In t thresholds -> nonneg t = true -> leb t lit_0_55 = false ->
             select db sql query t = Rows []).
  { intros t Hin Htn Hlt. destruct (Hans t Hin) as [rows Hrows].
    destruct (select_one_best db sql query t rows eq_refl Hcnn Hrows)
      as [[-> _]|([[smi id] s] & _ & Hc & Hge & _)]; [assumption|].
    apply In_candidates in Hc. destruct Hc as [Hrow Hs].
    destruct (Hbest smi id s Hrow Hs) as [Hn Hle].
    assert (Hcontra : leb t lit_0_55 = true).
    { apply (leb_nonneg_trans t s lit_0_55); auto. }
    congruence. }
  assert (H7 : select db sql query lit_0_7 = Rows []).
  { apply Hempty; [left; reflexivity|reflexivity|reflexivity]. }
  assert (H6 : select db sql query lit_0_6 = Rows []).
  { apply Hempty; [right; left; reflexivity|reflexivity|reflexivity]. }
  split; [exact H7|]. split; [exact H6|].
  destruct (Hans lit_0_5 (or_intror (or_intror (or_introl eq_refl))))
    as [rows Hrows].
  destruct (select_one_best db sql query lit_0_5 rows eq_refl Hcnn Hrows)
    as [[_ Hnone]|([[smi id] s] & -> & Hc & Hge & Hmax)].
  - specialize (Hnone _ Hc0). simpl in Hnone. discriminate.
  - exists smi, id, s.
    pose proof (Hmax _ Hc0 eq_refl) as Hup. simpl in Hup.
    apply In_candidates in Hc. destruct Hc as [Hrow Hs].
    destruct (Hbest smi id s Hrow Hs) as [_ Hle].
    split; [|auto].
    rewrite get_similarity_scan.
    change thresholds with ([lit_0_7; lit_0_6] ++ lit_0_5 :: skipn 3 thresholds).
    apply (scan_first_match (select db) sql query [lit_0_7; lit_0_6]).
    + repeat constructor; assumption.
    + exact Hrows.
Qed.

Lemma get_similarity_best_0_55_witness :
  answers (select Example.chembl) (worker_sql morgan "mol" "mols") "CCCO" /\
  get_similarity (select Example.chembl) morgan "mol" "mols" "CCCO" (Some 1%Z)
  = (map (mkCall (worker_sql morgan "mol" "mols") "CCCO")
         [lit_0_7; lit_0_6; lit_0_5],
     Ok (Some [("CCO", "ref1", lit_0_55)%string])).
Proof.
  split; [apply example_answers|].
  destruct (get_similarity_best_0_55 Example.chembl morgan "mol" "mols" "CCCO")
    as (_ & _ & smi & id & s & Hget & _).
  - apply example_answers.
  - intros smi id s Hin Hs. simpl in Hin.
    destruct Hin as [H|[H|[H|[]]]]; injection H as <- <-;
      vm_compute in Hs; injection Hs as <-; split; reflexivity.
  - exists "CCO"%string, "ref1"%string. split; [right; left; reflexivity|].
    reflexivity.
  - rewrite Hget. vm_compute in Hget. injection Hget as <- <- <-. reflexivity.
Defined.

End Select.
